(** * Eager association loading of pop ([eager.go])

    A shallow embedding of [eagerLoad], [eagerLoadDefault] and
    [eagerLoadCache] together with the three [SetEagerMode] setters, and the
    properties of the loader that follow from the code.

    Go passes the model as a pointer and the loader writes through pointers
    to fields and to slice elements.  The embedding keeps one record tree
    (the heap) and represents every pointer by the path that leads from the
    root of the tree to the place it designates, so that a write through the
    address of a field is a write into the owning record. *)

From Stdlib Require Import ZArith String Ascii List Bool Lia.
From stdpp Require Import base list strings pretty.

Set Warnings "-register-all".
Open Scope string_scope.
Open Scope list_scope.

(** ** Errors ([database/sql], [github.com/pkg/errors]) *)

(** [sql_ErrNoRows] is the sentinel [sql.ErrNoRows]; [ErrNew] is an error made
    by [errors.Errorf] or by a collaborator; [ErrWrap] is an error wrapped
    with a message by [errors.Wrap]. *)
Inductive error : Type :=
| sql_ErrNoRows
| ErrNew (msg : string)
| ErrWrap (msg : string) (cause : error).

(** [errors.Cause]: unwraps until the innermost error. *)
Fixpoint Cause (e : error) : error :=
  match e with
  | ErrWrap _ c => Cause c
  | _ => e
  end.

Definition is_ErrNoRows (e : error) : bool :=
  match e with
  | sql_ErrNoRows => true
  | _ => false
  end.

(** The test of line 119: [err != nil && errors.Cause(err) != sql.ErrNoRows]. *)
Definition fatal (err : option error) : bool :=
  match err with
  | None => false
  | Some e => negb (is_ErrNoRows (Cause e))
  end.

(** [errors.Errorf("eager mode %v is not supported by pop", m)]: [%v] prints
    a [uint8] in decimal. *)
Definition Errorf_unsupported (m : Z) : error :=
  ErrNew ("eager mode " ++ pretty m ++ " is not supported by pop")%string.

(** ** Values, kinds and pointers ([reflect]) *)

Module reflect.

(** [reflect.Kind]. *)
Inductive Kind : Type :=
| Invalid | Bool | Int | Int8 | Int16 | Int32 | Int64
| Uint | Uint8 | Uint16 | Uint32 | Uint64 | Uintptr
| Float32 | Float64 | Complex64 | Complex128
| Array | Chan | Func | Interface | Map | Pointer | Slice
| String | Struct | UnsafePointer.

Definition is_Slice (k : Kind) : bool :=
  match k with Slice => true | _ => false end.
Definition is_Array (k : Kind) : bool :=
  match k with Array => true | _ => false end.
Definition is_Struct (k : Kind) : bool :=
  match k with Struct => true | _ => false end.

(** The values a model is made of.  [VNil] is what [reflect.Indirect] finds
    behind a nil pointer (kind [Invalid]). *)
Inductive value : Type :=
| VNil
| VBool (b : bool)
| VInt (n : Z)
| VString (s : string)
| VStruct (fields : list (string * value))
| VSlice (elems : list value)
| VArray (elems : list value).

Definition kind_of (v : value) : Kind :=
  match v with
  | VNil => Invalid
  | VBool _ => Bool
  | VInt _ => Int
  | VString _ => String
  | VStruct _ => Struct
  | VSlice _ => Slice
  | VArray _ => Array
  end.

(** [v.Len()] of a slice or array. *)
Definition Len (v : value) : nat :=
  match v with
  | VSlice es | VArray es => length es
  | _ => 0
  end.

(** A pointer is the path from the root of the heap to a place: through a
    field of a struct ([FieldByName(..).Addr()]) or an element of a slice or
    array ([Index(i).Addr()]). *)
Inductive step : Type :=
| Fld (name : string)
| Idx (i : nat).

Definition ptr : Type := list step.

(** [FieldByName] on the fields of a struct: the first field of that name. *)
Fixpoint field_lookup (f : string) (fs : list (string * value)) : option value :=
  match fs with
  | [] => None
  | (g, v) :: fs' => if String.eqb f g then Some v else field_lookup f fs'
  end.

Fixpoint field_alter (h : value -> value) (f : string)
    (fs : list (string * value)) : list (string * value) :=
  match fs with
  | [] => []
  | (g, v) :: fs' =>
      if String.eqb f g then (g, h v) :: fs' else (g, v) :: field_alter h f fs'
  end.

(** The place a pointer designates, if the path exists. *)
Fixpoint store_at (p : ptr) (v : value) : option value :=
  match p with
  | [] => Some v
  | Fld f :: p' =>
      match v with
      | VStruct fs =>
          match field_lookup f fs with
          | Some w => store_at p' w
          | None => None
          end
      | _ => None
      end
  | Idx i :: p' =>
      match v with
      | VSlice es | VArray es =>
          match es !! i with
          | Some w => store_at p' w
          | None => None
          end
      | _ => None
      end
  end.

(** A write through a pointer.  Go pointers always designate a place; a path
    that designates none leaves the heap as it is. *)
Fixpoint store_set (p : ptr) (w : value) (v : value) : value :=
  match p with
  | [] => w
  | Fld f :: p' =>
      match v with
      | VStruct fs => VStruct (field_alter (store_set p' w) f fs)
      | _ => v
      end
  | Idx i :: p' =>
      match v with
      | VSlice es => VSlice (alter (store_set p' w) i es)
      | VArray es => VArray (alter (store_set p' w) i es)
      | _ => v
      end
  end.

(** [reflect.Indirect(reflect.ValueOf(p))]: the value behind the pointer. *)
Definition Indirect (h : value) (p : ptr) : value :=
  default VNil (store_at p h).

End reflect.

Export reflect (value(..), step(..), ptr, store_at, store_set, Indirect).

(** ** Association descriptors (package [associations]) *)

Module associations.

(** [associations.InnerAssociation]: a field of the owning record and the
    field filter to load it with. *)
Record InnerAssociation : Type := mkInner {
  Name : string;
  Fields : string
}.

(** Modelled from the spec: the package [associations] (the interfaces
    [Association] and [AssociationSortable]) is not among the sources.  An
    association is given by the results of the methods the loader calls:
    [Kind()], [Constraint()], [InnerAssociations()], [Skipped()], and
    [OrderBy()] when the association implements [AssociationSortable]
    ([None] when it does not).  [Interface()] is a pointer to "the
    association's field" of the owning record; the descriptor carries the
    name of that field. *)
Record Association : Type := mkAssociation {
  fieldName : string;
  Kind : reflect.Kind;
  Constraint : string * list value;
  OrderBy : option string;
  InnerAssociations : list InnerAssociation;
  Skipped : bool
}.

(** [association.Interface()], for the association of the record at [model]. *)
Definition Interface (model : ptr) (a : Association) : ptr :=
  model ++ [reflect.Fld (fieldName a)].

End associations.

Export associations.

(** ** The eager mode *)

(** [type eagerMode uint8]. *)
Definition eagerMode : Type := Z.

Definition EagerDefault : eagerMode := 0%Z.
Definition EagerCache : eagerMode := 1%Z.
Definition eagerNotSpecified : eagerMode := 2%Z.

(** ** Queries, and the collaborators of the loader *)

(** The fields of [Query] that [eager.go] reads and writes; [Query_builder]
    stands for the rest of the struct (clauses, raw statement), which only
    the query builder of [query.go] looks at. *)
Record Query (Connection Builder : Type) : Type := mkQuery {
  Query_Connection : Connection;
  Query_eager : bool;
  Query_eagerMode : eagerMode;
  Query_eagerFields : list string;
  Query_builder : Builder
}.

Arguments mkQuery {Connection Builder}.
Arguments Query_Connection {Connection Builder}.
Arguments Query_eager {Connection Builder}.
Arguments Query_eagerMode {Connection Builder}.
Arguments Query_eagerFields {Connection Builder}.
Arguments Query_builder {Connection Builder}.

(** The calls the loader makes into the rest of the package: the query
    builder and executor ([Q], [Where], [Order], [ToSQL], [RawQuery], [All],
    [First]) and the introspection of a model ([AssociationsForStruct]).
    [ToSQL], [All] and [First] see the current content of the destination;
    [All] and [First] return the error, the content they leave in the
    destination and the database after the statement. *)
Class Collaborators (Connection Builder DB : Type) : Type := {
  Q : Connection -> Query Connection Builder;
  Where : string -> list value -> Query Connection Builder -> Query Connection Builder;
  Order : string -> Query Connection Builder -> Query Connection Builder;
  ToSQL : Query Connection Builder -> value -> string * list value;
  RawQuery : string -> list value -> Query Connection Builder -> Query Connection Builder;
  All : Query Connection Builder -> value -> DB -> option error * value * DB;
  First : Query Connection Builder -> value -> DB -> option error * value * DB;
  AssociationsForStruct : value -> list string -> error + list Association
}.

Inductive FetchOp : Type := FetchAll | FetchFirst.

(** One executed sub-query: the operation, the query run and the pointer
    it scanned into. *)
Record Fetch (Connection Builder : Type) : Type := mkFetch {
  fetch_op : FetchOp;
  fetch_query : Query Connection Builder;
  fetch_dest : ptr
}.

Arguments mkFetch {Connection Builder}.
Arguments fetch_op {Connection Builder}.
Arguments fetch_query {Connection Builder}.
Arguments fetch_dest {Connection Builder}.

(** What a call of the loader can see and change: the package variable
    [emode], the receiver [q], the records reachable from the model, the
    database, and (as a history) the sub-queries executed so far. *)
Record state (Connection Builder DB : Type) : Type := mkState {
  emode : eagerMode;
  q : Query Connection Builder;
  heap : value;
  db : DB;
  issued : list (Fetch Connection Builder)
}.

Arguments mkState {Connection Builder DB}.
Arguments emode {Connection Builder DB}.
Arguments q {Connection Builder DB}.
Arguments heap {Connection Builder DB}.
Arguments db {Connection Builder DB}.
Arguments issued {Connection Builder DB}.

(** The result of a call: an [error] value (nil is [None]) and the state it
    leaves, a panic of [reflect], or no result within the given fuel. *)
Inductive outcome (Connection Builder DB : Type) : Type :=
| OutOfFuel
| Panic
| Ret (err : option error) (s : state Connection Builder DB).

Arguments OutOfFuel {Connection Builder DB}.
Arguments Panic {Connection Builder DB}.
Arguments Ret {Connection Builder DB}.

(** The result of one pass through a loop body: go on with the next
    iteration (with the current value of the variable [err]), or leave the
    function with an outcome. *)
Inductive flow (Connection Builder DB : Type) : Type :=
| Next (err : option error) (s : state Connection Builder DB)
| Stop (o : outcome Connection Builder DB).

Arguments Next {Connection Builder DB}.
Arguments Stop {Connection Builder DB}.

Section Loader.

Context {Connection Builder DB : Type} `{!Collaborators Connection Builder DB}.

Abbreviation Query := (Query Connection Builder).
Abbreviation state := (state Connection Builder DB).
Abbreviation outcome := (outcome Connection Builder DB).
Abbreviation flow := (flow Connection Builder DB).

(** [q.eagerMode = m] and [q.eagerFields = fs]. *)
Definition set_eagerMode (m : eagerMode) (qu : Query) : Query :=
  mkQuery (Query_Connection qu) (Query_eager qu) m (Query_eagerFields qu)
          (Query_builder qu).

Definition set_eagerFields (fs : list string) (qu : Query) : Query :=
  mkQuery (Query_Connection qu) (Query_eager qu) (Query_eagerMode qu) fs
          (Query_builder qu).

(** [query.eager = b]. *)
Definition set_eager (b : bool) (qu : Query) : Query :=
  mkQuery (Query_Connection qu) b (Query_eagerMode qu) (Query_eagerFields qu)
          (Query_builder qu).

Definition with_q (qu : Query) (s : state) : state :=
  mkState (emode s) qu (heap s) (db s) (issued s).

(** [func SetEagerMode(m eagerMode)]: assigns the package variable. *)
Definition SetEagerMode (m : eagerMode) (s : state) : state :=
  mkState m (q s) (heap s) (db s) (issued s).

(** [func (q *Query) SetEagerMode(m eagerMode) *Query]. *)
Definition Query_SetEagerMode (m : eagerMode) (qu : Query) : Query :=
  set_eagerMode m qu.

(** [func (c *Connection) SetEagerMode(m eagerMode) *Query]. *)
Definition Connection_SetEagerMode (m : eagerMode) (c : Connection) : Query :=
  Query_SetEagerMode m (Q c).

(** [func (q *Query) eagerLoadCache(model interface{}) error]. *)
Definition eagerLoadCache (model : ptr) (s : state) : outcome :=
  Ret None s.

(** Lines 90 to 106: the sub-query of an association, before translation. *)
Definition subQuery (c : Connection) (a : Association) : Query :=
  let query := Q c in
  let query := set_eager false query in
  let '(whereCondition, args) := Constraint a in
  let query := Where whereCondition args query in
  match OrderBy a with
  | Some orderClause =>
      if String.eqb orderClause "" then query else Order orderClause query
  | None => query
  end.

(** Lines 108 and 109: the raw query that is executed for [a]. *)
Definition rawQuery (c : Connection) (a : Association) (cur : value) : Query :=
  let query := subQuery c a in
  let '(sqlSentence, args) := ToSQL query cur in
  RawQuery sqlSentence args query.

(** [query.All(dest)] and [query.First(dest)]: the statement runs, the
    destination receives what the executor scanned, and the call yields
    the executor's error. *)
Definition fetch (op : FetchOp) (query : Query) (dest : ptr) (s : state)
    : option error * state :=
  let run := match op with FetchAll => All | FetchFirst => First end in
  let '(err, v, d) := run query (Indirect (heap s) dest) (db s) in
  (err, mkState (emode s) (q s) (store_set dest v (heap s)) d
                (issued s ++ [mkFetch op query dest])).

(** A recursive call of the loader. *)
Definition load_fn : Type := ptr -> state -> outcome.

(** Lines 125 to 132, the loop over the inner associations. *)
Fixpoint innerIter (rec : load_fn) (model : ptr)
    (inners : list InnerAssociation) (err : option error) (s : state) : flow :=
  match inners with
  | [] => Next err s
  | inner :: rest =>
      let v := model ++ [reflect.Fld (Name inner)] in
      match store_at v (heap s) with
      | None => Stop Panic
      | Some _ =>
          let s := with_q (set_eagerFields [Fields inner] (q s)) s in
          match rec v s with
          | Ret None s' => innerIter rec model rest None s'
          | o => Stop o
          end
      end
  end.

(** Lines 108 to 117: the sub-query is translated and executed with [All]
    for a slice or array and with [First] for a struct; for any other kind
    nothing runs and [err] keeps the value it had. *)
Definition populate (model : ptr) (a : Association) (err : option error)
    (s : state) : option error * state :=
  let dest := Interface model a in
  let query := rawQuery (Query_Connection (q s)) a (Indirect (heap s) dest) in
  let '(err, s) :=
    if reflect.is_Slice (Kind a) || reflect.is_Array (Kind a)
    then fetch FetchAll query dest s else (err, s) in
  if reflect.is_Struct (Kind a)
  then fetch FetchFirst query dest s else (err, s).

(** Lines 86 to 132, the body of the loop over the associations. *)
Definition assocBody (rec : load_fn) (model : ptr) (a : Association)
    (err : option error) (s : state) : flow :=
  if Skipped a then Next err s
  else
    let '(err, s) := populate model a err s in
    if fatal err then Stop (Ret err s)
    else innerIter rec model (InnerAssociations a) err s.

(** Lines 85 to 133, the loop over the associations. *)
Fixpoint assocIter (rec : load_fn) (model : ptr) (assos : list Association)
    (err : option error) (s : state) : flow :=
  match assos with
  | [] => Next err s
  | association :: rest =>
      match assocBody rec model association err s with
      | Next err' s' => assocIter rec model rest err' s'
      | Stop o => Stop o
      end
  end.

(** Lines 70 to 76, the loop over the elements of a slice or array.  The
    bound [v.Len()] is read again before every iteration; [gas] bounds the
    number of iterations. *)
Fixpoint elemsLoop (rec : load_fn) (gas : nat) (model : ptr) (i : nat)
    (s : state) : outcome :=
  match gas with
  | 0 => OutOfFuel
  | S gas' =>
      if (i <? reflect.Len (Indirect (heap s) model))%nat then
        match rec (model ++ [reflect.Idx i]) s with
        | Ret None s' => elemsLoop rec gas' model (S i) s'
        | o => o
        end
      else Ret None s
  end.

(** [func (q *Query) eagerLoadDefault(model interface{}) error].  The fuel
    bounds the depth of the recursion and the length of the element loop. *)
Fixpoint eagerLoadDefault (fuel : nat) (model : ptr) (s : state) : outcome :=
  match fuel with
  | 0 => OutOfFuel
  | S fuel' =>
      let k := reflect.kind_of (Indirect (heap s) model) in
      if reflect.is_Slice k || reflect.is_Array k then
        elemsLoop (eagerLoadDefault fuel') fuel' model 0 s
      else
        match AssociationsForStruct (Indirect (heap s) model)
                                    (Query_eagerFields (q s)) with
        | inl err => Ret (Some err) s
        | inr assos =>
            match assocIter (eagerLoadDefault fuel') model assos None s with
            | Next _ s' => Ret None s'
            | Stop o => o
            end
        end
  end.

(** [func (q *Query) eagerLoad(model interface{}) error]. *)
Definition eagerLoad (fuel : nat) (model : ptr) (s : state) : outcome :=
  let s :=
    if (Query_eagerMode (q s) =? eagerNotSpecified)%Z
    then with_q (set_eagerMode (emode s) (q s)) s else s in
  if (Query_eagerMode (q s) =? EagerDefault)%Z then eagerLoadDefault fuel model s
  else if (Query_eagerMode (q s) =? EagerCache)%Z then eagerLoadCache model s
  else Ret (Some (Errorf_unsupported (emode s))) s.

End Loader.

(** ** Notions the properties are stated with *)

(** Two values have the same shape when [Kind()] and [Len()] agree. *)
Definition same_shape (v w : value) : Prop :=
  reflect.kind_of v = reflect.kind_of w /\ reflect.Len v = reflect.Len w.

(** The state a loop body or a call leaves, when it leaves one. *)
Definition flow_state {Connection Builder DB : Type}
    (f : flow Connection Builder DB) : option (state Connection Builder DB) :=
  match f with
  | Next _ s => Some s
  | Stop (Ret _ s) => Some s
  | Stop _ => None
  end.

(** A place strictly below [m]. *)
Definition below (m p : ptr) : Prop := exists x r, p = m ++ x :: r.

(** The elements at the given indices are resolved one after the other, each
    from the state the previous one left; the first error ends the run. *)
Fixpoint resolve_in_order {Connection Builder DB : Type}
    (rec : ptr -> state Connection Builder DB -> outcome Connection Builder DB)
    (model : ptr) (idxs : list nat) (s : state Connection Builder DB)
    : outcome Connection Builder DB :=
  match idxs with
  | [] => Ret None s
  | i :: rest =>
      match rec (model ++ [reflect.Idx i]) s with
      | Ret None s' => resolve_in_order rec model rest s'
      | o => o
      end
  end.

(** The operation line 111 or line 115 runs for an association of kind [k],
    if any. *)
Definition fetch_for (k : reflect.Kind) : option FetchOp :=
  if reflect.is_Slice k || reflect.is_Array k then Some FetchAll
  else if reflect.is_Struct k then Some FetchFirst
  else None.

(** The mode a load uses: the process-wide mode when the query has none of
    its own. *)
Definition effective_mode {Connection Builder DB : Type}
    (s : state Connection Builder DB) : eagerMode :=
  if (Query_eagerMode (q s) =? eagerNotSpecified)%Z then emode s
  else Query_eagerMode (q s).

(** The three ways the dispatch of [eagerLoad] can go. *)
Inductive strategy : Type := UseDefault | UseCache | Unsupported.

Definition strategy_of (m : eagerMode) : strategy :=
  if (m =? EagerDefault)%Z then UseDefault
  else if (m =? EagerCache)%Z then UseCache
  else Unsupported.

Definition run_strategy {Connection Builder DB : Type}
    `{!Collaborators Connection Builder DB}
    (st : strategy) (fuel : nat) (model : ptr)
    (s : state Connection Builder DB) : outcome Connection Builder DB :=
  match st with
  | UseDefault => eagerLoadDefault fuel model s
  | UseCache => eagerLoadCache model s
  | Unsupported => Ret (Some (Errorf_unsupported (emode s))) s
  end.

(** The outcome of the association loop, as [eagerLoadDefault] returns it. *)
Definition ret_of_flow {Connection Builder DB : Type}
    (f : flow Connection Builder DB) : outcome Connection Builder DB :=
  match f with
  | Next _ s => Ret None s
  | Stop o => o
  end.

(** ** A small schema to run the loader on

    Authors have books, a book has a publisher, a publisher has a country;
    a car has wheels, an owner, a garage and trips; a post has tags and comments.
    The query builder keeps the clauses it is given, the executor answers
    from a fixed table of rows, and the introspection reads the whitelist
    as dotted paths: the entry [Books.Publisher] selects the association
    [Books] and gives it the inner association [(Books, Publisher)]. *)

Module Demo.

Definition Connection : Type := string.
Definition DB : Type := nat.

(** The clauses of a query, and the raw statement once it has one. *)
Record Builder : Type := mkBuilder {
  whereClauses : list (string * list value);
  orderClauses : list string;
  RawSQL : option (string * list value)
}.

Definition Q (c : Connection) : Query Connection Builder :=
  mkQuery c true eagerNotSpecified [] (mkBuilder [] [] None).

Definition with_builder (b : Builder) (qu : Query Connection Builder)
    : Query Connection Builder :=
  mkQuery (Query_Connection qu) (Query_eager qu) (Query_eagerMode qu)
          (Query_eagerFields qu) b.

Definition Where (cond : string) (args : list value)
    (qu : Query Connection Builder) : Query Connection Builder :=
  let b := Query_builder qu in
  with_builder (mkBuilder (whereClauses b ++ [(cond, args)]) (orderClauses b)
                          (RawSQL b)) qu.

Definition Order (clause : string) (qu : Query Connection Builder)
    : Query Connection Builder :=
  let b := Query_builder qu in
  with_builder (mkBuilder (whereClauses b) (orderClauses b ++ [clause])
                          (RawSQL b)) qu.

Definition RawQuery (stmt : string) (args : list value)
    (qu : Query Connection Builder) : Query Connection Builder :=
  let b := Query_builder qu in
  with_builder (mkBuilder (whereClauses b) (orderClauses b)
                          (Some (stmt, args))) qu.

Definition ToSQL (qu : Query Connection Builder) (cur : value)
    : string * list value :=
  let b := Query_builder qu in
  match RawSQL b with
  | Some raw => raw
  | None =>
      (String.concat " AND " (map fst (whereClauses b)) ++
       match orderClauses b with
       | [] => ""
       | cs => " ORDER BY " ++ String.concat ", " cs
       end,
       concat (map snd (whereClauses b)))%string
  end.

Definition country (code : string) : value :=
  VStruct [("Code", VString code)].

Definition publisher (id : Z) (c : value) : value :=
  VStruct [("ID", VInt id); ("Country", c)].

Definition book (id : Z) (p : value) : value :=
  VStruct [("ID", VInt id); ("Publisher", p)].

Definition author (id : Z) (books : list value) : value :=
  VStruct [("ID", VInt id); ("Books", VSlice books)].

Definition person (name : string) : value :=
  VStruct [("Name", VString name)].

Definition wheel (pos : Z) : value :=
  VStruct [("Pos", VInt pos)].

Definition car (id : Z) (wheels : list value) (owner garage : value) : value :=
  VStruct [("ID", VInt id); ("Wheels", VSlice wheels); ("Owner", owner);
           ("Garage", garage); ("Trips", VSlice [])].

Definition post (id : Z) (tags comments : list value) : value :=
  VStruct [("ID", VInt id); ("Tags", VSlice tags);
           ("Comments", VSlice comments)].

(** The rows behind each statement: the error of the executor and the
    content it leaves in the destination. *)
Definition rows (stmt : string) (cur : value) : option error * value :=
  if String.eqb stmt "author_id = ? ORDER BY title asc" then
    (None, VSlice [book 10 (publisher 0 (country ""));
                   book 11 (publisher 0 (country ""))])
  else if String.eqb stmt "book_id = ?" then
    (None, publisher 7 (country ""))
  else if String.eqb stmt "publisher_id = ?" then
    (None, country "FR")
  else if String.eqb stmt "car_id = ?" then
    (None, VSlice [wheel 1; wheel 2; wheel 3; wheel 4])
  else if String.eqb stmt "owner_id = ?" then
    (Some (ErrWrap "sql: first" sql_ErrNoRows), cur)
  else if String.eqb stmt "garage_id = ?" then
    (Some (ErrNew "connection reset"), cur)
  else if String.eqb stmt "tag_id = ?" then
    (Some sql_ErrNoRows, cur)
  else if String.eqb stmt "post_id = ?" then
    (None, VSlice [VString "first!"; VString "nice"])
  else (None, cur).

Definition run (qu : Query Connection Builder) (cur : value) (d : DB)
    : option error * value * DB :=
  let '(err, v) := rows (fst (ToSQL qu cur)) cur in
  (err, v, S d).

Definition has_field (f : string) (fs : list (string * value)) : bool :=
  match reflect.field_lookup f fs with Some _ => true | None => false end.

(** [Books.Publisher] is [(Books, Publisher)]; [Books] is [(Books, "")]. *)
Fixpoint split_dot (e : string) : string * string :=
  match e with
  | EmptyString => (EmptyString, EmptyString)
  | String c r =>
      if Ascii.eqb c "."%char then (EmptyString, r)
      else let '(h, t) := split_dot r in (String c h, t)
  end.

(** The inner associations the whitelist gives to the field [name], when it
    selects the field at all; an empty whitelist selects every field. *)
Definition selected (fields : list string) (name : string)
    : option (list InnerAssociation) :=
  match fields with
  | [] => Some []
  | _ =>
      match filter (fun e => String.eqb (fst (split_dot e)) name = true)
                   fields with
      | [] => None
      | hits =>
          Some (omap (fun e =>
                        let t := snd (split_dot e) in
                        if String.eqb t "" then None
                        else Some (mkInner name t)) hits)
      end
  end.

(** The associations a record shape declares, from the fields it has. *)
Definition declared (fs : list (string * value))
    : list (list InnerAssociation -> Association) :=
  let id := default VNil (reflect.field_lookup "ID" fs) in
  let mk name kind cond order :=
    fun inners => mkAssociation name kind (cond, [id]) order inners false in
  if has_field "Books" fs then
    [mk "Books" reflect.Slice "author_id = ?" (Some "title asc")]
  else if has_field "Publisher" fs then
    [mk "Publisher" reflect.Struct "book_id = ?" (Some "")]
  else if has_field "Country" fs then
    [mk "Country" reflect.Struct "publisher_id = ?" None]
  else if has_field "Wheels" fs then
    [mk "Wheels" reflect.Slice "car_id = ?" None;
     mk "Owner" reflect.Struct "owner_id = ?" None;
     mk "Garage" reflect.Struct "garage_id = ?" None;
     mk "Trips" reflect.Slice "trip_id = ?" None]
  else if has_field "Tags" fs then
    [mk "Tags" reflect.Slice "tag_id = ?" None;
     mk "Comments" reflect.Slice "post_id = ?" None]
  else [].

Definition AssociationsForStruct (v : value) (fields : list string)
    : error + list Association :=
  match v with
  | VStruct fs =>
      inr (omap (fun d => d <$> selected fields (fieldName (d []))) (declared fs))
  | _ => inl (ErrNew "could not get struct associations: not a struct")
  end.

#[global] Instance collaborators : Collaborators Connection Builder DB :=
  Build_Collaborators Connection Builder DB
    Q Where Order ToSQL RawQuery run run AssociationsForStruct.

(** A receiver with a mode and a whitelist, and the state around a model
    before anything was loaded; the process-wide mode is [EagerDefault]. *)
Definition receiver (m : eagerMode) (fields : list string)
    : Query Connection Builder :=
  mkQuery "pg" true m fields (mkBuilder [] [] None).

Definition start (m : eagerMode) (fields : list string) (model : value)
    : state Connection Builder DB :=
  mkState EagerDefault (receiver m fields) model 0 [].

(** The whitelist of the receiver and the model after a load. *)
Definition whitelist_after (o : outcome Connection Builder DB)
    : option (list string) :=
  match o with
  | Ret _ s => Some (Query_eagerFields (q s))
  | _ => None
  end.

Definition model_after (o : outcome Connection Builder DB) : option value :=
  match o with
  | Ret _ s => Some (heap s)
  | _ => None
  end.

Definition error_after (o : outcome Connection Builder DB)
    : option (option error) :=
  match o with
  | Ret e _ => Some e
  | _ => None
  end.

Definition fetched (o : outcome Connection Builder DB)
    : option (list (FetchOp * string * ptr)) :=
  match o with
  | Ret _ s =>
      Some (map (fun f => (fetch_op f, fst (ToSQL (fetch_query f) VNil),
                           fetch_dest f)) (issued s))
  | _ => None
  end.

(** The descriptors of the schema, as the introspection builds them for
    the records with [ID] 1. *)
Definition books (inners : list InnerAssociation) : Association :=
  mkAssociation "Books" reflect.Slice ("author_id = ?", [VInt 1])
                (Some "title asc") inners false.

Definition publisher_of (id : Z) (inners : list InnerAssociation)
    : Association :=
  mkAssociation "Publisher" reflect.Struct ("book_id = ?", [VInt id])
                (Some "") inners false.

Definition country_of (id : Z) : Association :=
  mkAssociation "Country" reflect.Struct ("publisher_id = ?", [VInt id])
                None [] false.

Definition wheels : Association :=
  mkAssociation "Wheels" reflect.Slice ("car_id = ?", [VInt 1]) None [] false.

Definition owner (skip : bool) : Association :=
  mkAssociation "Owner" reflect.Struct ("owner_id = ?", [VInt 1]) None [] skip.

Definition garage (inners : list InnerAssociation) : Association :=
  mkAssociation "Garage" reflect.Struct ("garage_id = ?", [VInt 1]) None
                inners false.

Definition trips : Association :=
  mkAssociation "Trips" reflect.Slice ("trip_id = ?", [VInt 1]) None [] false.

Definition tags : Association :=
  mkAssociation "Tags" reflect.Slice ("tag_id = ?", [VInt 1]) None [] false.

Definition comments : Association :=
  mkAssociation "Comments" reflect.Slice ("post_id = ?", [VInt 1]) None []
                false.

(** One author, one car, one post and a slice of two authors, with nothing
    loaded yet. *)
Definition an_author (fields : list string) : state Connection Builder DB :=
  start EagerDefault fields (author 1 []).

Definition two_authors (fields : list string) : state Connection Builder DB :=
  start EagerDefault fields (VSlice [author 1 []; author 2 []]).

Definition a_car (fields : list string) : state Connection Builder DB :=
  start EagerDefault fields (car 1 [] (person "") (person "")).

Definition two_cars : state Connection Builder DB :=
  start EagerDefault []
        (VArray [car 1 [] (person "") (person "");
                 car 2 [] (person "") (person "")]).

Definition a_post : state Connection Builder DB :=
  start EagerDefault [] (post 1 [] []).

(** The errors of the table of rows. *)
Definition no_rows_wrapped : error := ErrWrap "sql: first" sql_ErrNoRows.
Definition connection_reset : error := ErrNew "connection reset".

(** The state an outcome or a loop body carries, [d] when it carries none. *)
Definition state_of (o : outcome Connection Builder DB)
    (d : state Connection Builder DB) : state Connection Builder DB :=
  match o with
  | Ret _ s => s
  | _ => d
  end.

Definition state_of_flow (f : flow Connection Builder DB)
    (d : state Connection Builder DB) : state Connection Builder DB :=
  match f with
  | Next _ s => s
  | Stop o => state_of o d
  end.

End Demo.

(** ** Notions for the frame and cost of a load *)

(** [p] is [m] or a place strictly below it. *)
Definition at_or_below (m p : ptr) : Prop := p = m \/ below m p.

(** The operation and the destination of each executed sub-query. *)
Definition fetch_log {Connection Builder : Type}
    (l : list (Fetch Connection Builder)) : list (FetchOp * ptr) :=
  map (fun f => (fetch_op f, fetch_dest f)) l.

(** The sub-query lines 86 to 117 execute for an association of the record
    at [model]: none when it is skipped or of a kind that is not fetched. *)
Definition fetch_plan (model : ptr) (a : Association)
    : option (FetchOp * ptr) :=
  if Skipped a then None
  else (fun op => (op, Interface model a)) <$> fetch_for (Kind a).

(** A second set of collaborators on the same schema: the executor finds
    no row for any statement, and every record has an owner and trips. *)
Module Quiet.

Definition run (qu : Query Demo.Connection Demo.Builder) (cur : value)
    (d : Demo.DB) : option error * value * Demo.DB :=
  (Some sql_ErrNoRows, cur, S d).

Definition AssociationsForStruct (v : value) (fields : list string)
    : error + list Association :=
  inr [Demo.owner false; Demo.trips].

Definition collaborators
    : Collaborators Demo.Connection Demo.Builder Demo.DB :=
  Build_Collaborators Demo.Connection Demo.Builder Demo.DB
    Demo.Q Demo.Where Demo.Order Demo.ToSQL Demo.RawQuery run run
    AssociationsForStruct.

End Quiet.

(** * Properties *)

(** ** The heap *)

Lemma field_lookup_alter_eq (g : value -> value) (f : string)
    (fs : list (string * value)) :
  reflect.field_lookup f (reflect.field_alter g f fs)
  = g <$> reflect.field_lookup f fs.
Proof.
  induction fs as [|[k w] fs IH]; simpl; [reflexivity|].
  destruct (String.eqb f k) eqn:E; simpl; rewrite E; [reflexivity|exact IH].
Qed.

Lemma field_lookup_alter_ne (g : value -> value) (f f' : string)
    (fs : list (string * value)) :
  f <> f' ->
  reflect.field_lookup f' (reflect.field_alter g f fs)
  = reflect.field_lookup f' fs.
Proof.
  intros Hne. induction fs as [|[k w] fs IH]; simpl; [reflexivity|].
  destruct (String.eqb f k) eqn:E; simpl.
  - apply String.eqb_eq in E. subst k.
    destruct (String.eqb f' f) eqn:E'; [|reflexivity].
    apply String.eqb_eq in E'. congruence.
  - destruct (String.eqb f' k); [reflexivity|exact IH].
Qed.

Lemma field_alter_fixed (g : value -> value) (f : string)
    (fs : list (string * value)) :
  (forall w, reflect.field_lookup f fs = Some w -> g w = w) ->
  reflect.field_alter g f fs = fs.
Proof.
  induction fs as [|[k w] fs IH]; simpl; intros Hg; [reflexivity|].
  destruct (String.eqb f k) eqn:E.
  - rewrite Hg; reflexivity.
  - rewrite IH; [reflexivity|exact Hg].
Qed.

Lemma list_alter_fixed (g : value -> value) (i : nat) (es : list value) :
  (forall w, es !! i = Some w -> g w = w) -> alter g i es = es.
Proof.
  revert i. induction es as [|e es IH]; intros [|i] Hg; simpl; try reflexivity.
  - rewrite (Hg e); reflexivity.
  - f_equal. apply IH. exact Hg.
Qed.

(** Writing back what a place holds changes nothing. *)
Lemma store_set_same (p : ptr) (h : value) :
  store_set p (Indirect h p) h = h.
Proof.
  unfold Indirect. revert h.
  induction p as [|[f|i] p IH]; intros h; simpl; [reflexivity| |].
  - destruct h; try reflexivity. f_equal.
    apply field_alter_fixed. intros w Hw. rewrite Hw. apply IH.
  - destruct h; try reflexivity; f_equal;
      apply list_alter_fixed; intros w Hw; rewrite Hw; apply IH.
Qed.

(** A write strictly below a place leaves the kind and the length of the
    place as they are. *)
Lemma store_set_below_shape (m : ptr) (x : step) (r : ptr) (v h : value) :
  same_shape (Indirect (store_set (m ++ x :: r) v h) m) (Indirect h m).
Proof.
  unfold Indirect. revert h.
  induction m as [|[f|i] m IH]; intros h; simpl.
  - destruct x, h; simpl; split; try reflexivity; apply length_alter.
  - destruct h; simpl; try (split; reflexivity).
    rewrite field_lookup_alter_eq.
    destruct (reflect.field_lookup f fields); simpl; [apply IH|split; reflexivity].
  - destruct h; simpl; try (split; reflexivity);
      rewrite list_lookup_alter_eq;
      (destruct (elems !! i); simpl; [apply IH|split; reflexivity]).
Qed.

(** A write under one field of a record leaves the places under its other
    fields as they are. *)
Lemma store_set_other_field (m : ptr) (f f' : string) (r r' : ptr)
    (v h : value) :
  f <> f' ->
  store_at (m ++ reflect.Fld f' :: r')
           (store_set (m ++ reflect.Fld f :: r) v h)
  = store_at (m ++ reflect.Fld f' :: r') h.
Proof.
  intros Hne. revert h.
  induction m as [|[g|i] m IH]; intros h; simpl.
  - destruct h; try reflexivity. rewrite field_lookup_alter_ne by exact Hne.
    reflexivity.
  - destruct h; try reflexivity. rewrite field_lookup_alter_eq.
    destruct (reflect.field_lookup g fields); simpl; [apply IH|reflexivity].
  - destruct h; try reflexivity;
      rewrite list_lookup_alter_eq;
      (destruct (elems !! i); simpl; [apply IH|reflexivity]).
Qed.

Section LoaderFacts.

Context {Connection Builder DB : Type} `{!Collaborators Connection Builder DB}.

Abbreviation Query := (Query Connection Builder).
Abbreviation state := (state Connection Builder DB).
Abbreviation outcome := (outcome Connection Builder DB).
Abbreviation flow := (flow Connection Builder DB).
Abbreviation load_fn := (@load_fn Connection Builder DB).

(** What a fetch does to the state. *)
Lemma fetch_spec (op : FetchOp) (query : Query) (dest : ptr) (s : state) :
  exists err v d,
    match op with FetchAll => All | FetchFirst => First end
      query (Indirect (heap s) dest) (db s) = (err, v, d)
    /\ fetch op query dest s
       = (err, mkState (emode s) (q s) (store_set dest v (heap s)) d
                       (issued s ++ [mkFetch op query dest])).
Proof.
  unfold fetch.
  destruct (match op with FetchAll => All | FetchFirst => First end
              query (Indirect (heap s) dest) (db s)) as [[err v] d].
  exists err, v, d. split; reflexivity.
Qed.

Section Invariant.

(** A relation between states that every fetch into a field of a place in
    [P] and every assignment of a nested filter to the receiver respects is
    respected by a whole call of the loader on a place in [P]. *)
Variable P : ptr -> Prop.
Variable R : state -> state -> Prop.
Hypothesis R_refl : forall s, R s s.
Hypothesis R_trans : forall s1 s2 s3, R s1 s2 -> R s2 s3 -> R s1 s3.
Hypothesis P_step : forall p x, P p -> P (p ++ [x]).
Hypothesis R_fetch : forall op query p f s,
  P p -> R s (snd (fetch op query (p ++ [reflect.Fld f]) s)).
Hypothesis R_q : forall f s, R s (with_q (set_eagerFields [f] (q s)) s).

Lemma populate_inv (model : ptr) (a : Association) (err : option error)
    (s : state) :
  P model -> R s (snd (populate model a err s)).
Proof.
  intros HP. unfold populate, Interface.
  set (query := rawQuery _ _ _).
  destruct (reflect.is_Slice (Kind a) || reflect.is_Array (Kind a)).
  - pose proof (R_fetch FetchAll query model (fieldName a) s HP) as H1.
    destruct (fetch FetchAll query (model ++ [reflect.Fld (fieldName a)]) s)
      as [e1 s1]. simpl in H1.
    destruct (reflect.is_Struct (Kind a)); [|exact H1].
    eapply R_trans; [exact H1|]. apply R_fetch. exact HP.
  - destruct (reflect.is_Struct (Kind a)); [|apply R_refl].
    apply R_fetch. exact HP.
Qed.

Lemma innerIter_inv (rec : load_fn) (model : ptr) :
  (forall x s e s', rec (model ++ [x]) s = Ret e s' -> R s s') ->
  forall inners err s s',
    flow_state (innerIter rec model inners err s) = Some s' -> R s s'.
Proof.
  intros Hrec. induction inners as [|inner rest IH]; intros err s s'; simpl.
  - intros [= <-]. apply R_refl.
  - destruct (store_at _ (heap s)); [|discriminate].
    destruct (rec _ _) as [| |[e|] s1] eqn:Hr; simpl; try discriminate.
    + intros [= <-]. eapply R_trans; [apply R_q|]. eapply Hrec. exact Hr.
    + intros H1. eapply R_trans; [apply R_q|].
      eapply R_trans; [eapply Hrec; exact Hr|]. eapply IH. exact H1.
Qed.

Lemma assocBody_inv (rec : load_fn) (model : ptr) :
  P model ->
  (forall x s e s', rec (model ++ [x]) s = Ret e s' -> R s s') ->
  forall a err s s',
    flow_state (assocBody rec model a err s) = Some s' -> R s s'.
Proof.
  intros HP Hrec a err s s'. unfold assocBody.
  destruct (Skipped a).
  - intros [= <-]. apply R_refl.
  - pose proof (populate_inv model a err s HP) as H1.
    destruct (populate model a err s) as [e1 s1]. simpl in H1.
    destruct (fatal e1).
    + intros [= <-]. exact H1.
    + intros H2. eapply R_trans; [exact H1|].
      eapply innerIter_inv; eassumption.
Qed.

Lemma assocIter_inv (rec : load_fn) (model : ptr) :
  P model ->
  (forall x s e s', rec (model ++ [x]) s = Ret e s' -> R s s') ->
  forall assos err s s',
    flow_state (assocIter rec model assos err s) = Some s' -> R s s'.
Proof.
  intros HP Hrec. induction assos as [|a rest IH]; intros err s s'; simpl.
  - intros [= <-]. apply R_refl.
  - destruct (assocBody rec model a err s) as [e1 s1|o] eqn:Hb.
    + intros H1. eapply R_trans; [|eapply IH; exact H1].
      eapply assocBody_inv; try eassumption. rewrite Hb. reflexivity.
    + intros H1. eapply assocBody_inv; try eassumption. rewrite Hb. exact H1.
Qed.

Lemma elemsLoop_inv (rec : load_fn) (model : ptr) :
  (forall x s e s', rec (model ++ [x]) s = Ret e s' -> R s s') ->
  forall gas i s e s',
    elemsLoop rec gas model i s = Ret e s' -> R s s'.
Proof.
  intros Hrec. induction gas as [|gas IH]; intros i s e s'; simpl;
    [discriminate|].
  destruct (i <? _)%nat.
  - destruct (rec _ s) as [| |[e1|] s1] eqn:Hr; try discriminate.
    + intros [= <- <-]. eapply Hrec. exact Hr.
    + intros H1. eapply R_trans; [eapply Hrec; exact Hr|]. eapply IH. exact H1.
  - intros [= <- <-]. apply R_refl.
Qed.

Lemma eagerLoadDefault_inv (fuel : nat) :
  forall p s e s',
    P p -> eagerLoadDefault fuel p s = Ret e s' -> R s s'.
Proof.
  induction fuel as [|fuel IH]; intros p s e s' HP; simpl; [discriminate|].
  assert (Hrec : forall x s e s',
             eagerLoadDefault fuel (p ++ [x]) s = Ret e s' -> R s s').
  { intros x s0 e0 s0'. apply IH. apply P_step. exact HP. }
  destruct (_ || _).
  - apply elemsLoop_inv. exact Hrec.
  - destruct (AssociationsForStruct _ _) as [err|assos].
    + intros [= <- <-]. apply R_refl.
    + destruct (assocIter _ p assos None s) as [e1 s1|o] eqn:Hi.
      * intros [= <- <-]. eapply assocIter_inv; try eassumption.
        rewrite Hi. reflexivity.
      * intros ->. eapply assocIter_inv; try eassumption.
        rewrite Hi. reflexivity.
Qed.

End Invariant.

(** ** The loop over the elements of a collection *)

Lemma same_shape_refl (v : value) : same_shape v v.
Proof. split; reflexivity. Qed.

Lemma same_shape_trans (u v w : value) :
  same_shape u v -> same_shape v w -> same_shape u w.
Proof. intros [H1 H2] [H3 H4]. split; congruence. Qed.

Lemma below_step (m p : ptr) (x : step) : below m p -> below m (p ++ [x]).
Proof.
  intros (y & r & ->). exists y, (r ++ [x]).
  rewrite <- app_assoc. reflexivity.
Qed.

(** A call of the loader on a place strictly below [m] leaves the kind and
    the length of [m] as they are. *)
Lemma eagerLoadDefault_shape (m : ptr) (fuel : nat) (p : ptr) (s : state)
    (e : option error) (s' : state) :
  below m p ->
  eagerLoadDefault fuel p s = Ret e s' ->
  same_shape (Indirect (heap s') m) (Indirect (heap s) m).
Proof.
  apply (eagerLoadDefault_inv (below m)
           (fun s s' => same_shape (Indirect (heap s') m) (Indirect (heap s) m))).
  - intros s0. apply same_shape_refl.
  - intros s1 s2 s3 H1 H2. eapply same_shape_trans; eassumption.
  - intros p0 x. apply below_step.
  - intros op query p0 f s0 (y & r & ->).
    destruct (fetch_spec op query ((m ++ y :: r) ++ [reflect.Fld f]) s0)
      as (err & v & d & _ & ->). simpl.
    rewrite <- app_assoc. simpl. apply store_set_below_shape.
  - intros f s0. apply same_shape_refl.
Qed.

(** A call of the loader leaves the whitelist of the receiver as it is or
    leaves a single nested filter in it. *)
Lemma eagerLoadDefault_whitelist (fuel : nat) (p : ptr) (s : state)
    (e : option error) (s' : state) :
  eagerLoadDefault fuel p s = Ret e s' ->
  Query_eagerFields (q s') = Query_eagerFields (q s)
  \/ exists f, Query_eagerFields (q s') = [f].
Proof.
  apply (eagerLoadDefault_inv (fun _ => True)
           (fun s s' => Query_eagerFields (q s') = Query_eagerFields (q s)
                        \/ exists f, Query_eagerFields (q s') = [f])).
  - intros s0. left. reflexivity.
  - intros s1 s2 s3 [H1|H1] [H2|H2].
    + left. congruence.
    + right. exact H2.
    + right. rewrite H2. exact H1.
    + right. exact H2.
  - intros p0 x _. exact I.
  - intros op query p0 f s0 _.
    destruct (fetch_spec op query (p0 ++ [reflect.Fld f]) s0)
      as (err & v & d & _ & ->). left. reflexivity.
  - intros f s0. right. exists f. reflexivity.
  - exact I.
Qed.

Lemma resolve_in_order_app (rec : load_fn) (model : ptr) (l1 l2 : list nat)
    (s : state) :
  resolve_in_order rec model (l1 ++ l2) s
  = match resolve_in_order rec model l1 s with
    | Ret None s1 => resolve_in_order rec model l2 s1
    | o => o
    end.
Proof.
  revert s. induction l1 as [|i l1 IH]; intros s; simpl; [reflexivity|].
  destruct (rec _ s) as [| |[e|] s1]; try reflexivity. apply IH.
Qed.

(** While the length of the collection stays what it was, the loop resolves
    the remaining indices in increasing order. *)
Lemma elemsLoop_resolve (rec : load_fn) (model : ptr) :
  (forall i s e s',
      rec (model ++ [reflect.Idx i]) s = Ret e s' ->
      reflect.Len (Indirect (heap s') model)
      = reflect.Len (Indirect (heap s) model)) ->
  forall n gas i s,
    reflect.Len (Indirect (heap s) model) = i + n ->
    n < gas ->
    elemsLoop rec gas model i s = resolve_in_order rec model (seq i n) s.
Proof.
  intros Hrec. induction n as [|n IH]; intros gas i s Hlen Hgas;
    (destruct gas as [|gas]; [lia|]); simpl.
  - rewrite Hlen. replace (i <? i + 0)%nat with false; [reflexivity|].
    symmetry. apply Nat.ltb_ge. lia.
  - rewrite Hlen. replace (i <? i + S n)%nat with true.
    2:{ symmetry. apply Nat.ltb_lt. lia. }
    destruct (rec _ s) as [| |[e|] s1] eqn:Hr; try reflexivity.
    apply IH; [|lia]. rewrite (Hrec _ _ _ _ Hr). lia.
Qed.

(** C2.  When the model points to a slice or an array of N records, the
    default load resolves element 0, then element 1, ..., then element
    N-1, each exactly once and each from the state its predecessor left;
    when the resolution of element k returns an error, the load returns
    that error with the state of that moment, so that no later element is
    resolved. *)
Theorem eagerLoadDefault_elements_in_order (fuel : nat) (model : ptr)
    (s : state) (es : list value) :
  Indirect (heap s) model = VSlice es \/ Indirect (heap s) model = VArray es ->
  length es < fuel ->
  eagerLoadDefault (S fuel) model s
  = resolve_in_order (eagerLoadDefault fuel) model (seq 0 (length es)) s
  /\ (forall s',
        resolve_in_order (eagerLoadDefault fuel) model (seq 0 (length es)) s
        = Ret None s' ->
        eagerLoadDefault (S fuel) model s = Ret None s')
  /\ (forall k e sk s',
        k < length es ->
        resolve_in_order (eagerLoadDefault fuel) model (seq 0 k) s
        = Ret None sk ->
        eagerLoadDefault fuel (model ++ [reflect.Idx k]) sk = Ret (Some e) s' ->
        eagerLoadDefault (S fuel) model s = Ret (Some e) s').
Proof.
  intros Hv Hfuel.
  assert (Heq : eagerLoadDefault (S fuel) model s
                = resolve_in_order (eagerLoadDefault fuel) model
                    (seq 0 (length es)) s).
  { simpl.
    replace (reflect.is_Slice (reflect.kind_of (Indirect (heap s) model))
             || reflect.is_Array (reflect.kind_of (Indirect (heap s) model)))
      with true by (destruct Hv as [-> | ->]; reflexivity).
    apply elemsLoop_resolve; [| |exact Hfuel].
    - intros i s0 e s0' Hr.
      apply (eagerLoadDefault_shape model) in Hr; [apply Hr|].
      exists (reflect.Idx i), []. reflexivity.
    - destruct Hv as [-> | ->]; reflexivity. }
  split; [exact Heq|]. split.
  - intros s' Hs. rewrite Heq. exact Hs.
  - intros k e sk s' Hk Hpre Hfail. rewrite Heq.
    replace (length es) with (k + S (length es - S k)) by lia.
    rewrite seq_app, resolve_in_order_app, Hpre. simpl. rewrite Hfail.
    reflexivity.
Qed.

(** ** The dispatch on the eager mode *)

Lemma with_q_same (s : state) : with_q (q s) s = s.
Proof. destruct s. reflexivity. Qed.

Lemma set_eagerMode_same (qu : Query) : set_eagerMode (Query_eagerMode qu) qu = qu.
Proof. destruct qu. reflexivity. Qed.

(** Both setters of a query leave it with the mode they were given. *)
Lemma Query_SetEagerMode_mode (m : eagerMode) (qu : Query) :
  Query_eagerMode (Query_SetEagerMode m qu) = m.
Proof. reflexivity. Qed.

Lemma Connection_SetEagerMode_mode (m : eagerMode) (c : Connection) :
  Query_eagerMode (Connection_SetEagerMode m c) = m.
Proof. reflexivity. Qed.

(** [eagerLoad] stores the effective mode in the query and runs the strategy
    of that mode. *)
Lemma eagerLoad_dispatch (fuel : nat) (model : ptr) (s : state) :
  eagerLoad fuel model s
  = run_strategy (strategy_of (effective_mode s)) fuel model
      (with_q (set_eagerMode (effective_mode s) (q s)) s).
Proof.
  unfold eagerLoad, effective_mode, strategy_of, run_strategy.
  destruct (Query_eagerMode (q s) =? eagerNotSpecified)%Z eqn:E.
  - simpl. destruct (emode s =? EagerDefault)%Z; [reflexivity|].
    destruct (emode s =? EagerCache)%Z; reflexivity.
  - rewrite set_eagerMode_same, with_q_same.
    destruct (Query_eagerMode (q s) =? EagerDefault)%Z; [reflexivity|].
    destruct (Query_eagerMode (q s) =? EagerCache)%Z; reflexivity.
Qed.

(** C4.  A query whose mode is unspecified when [eagerLoad] runs is loaded
    with the strategy of the process-wide mode of that moment: after
    [SetEagerMode m] the load of such a query runs the strategy of [m],
    whatever the process-wide mode was when the query was made.  A query
    with a mode of its own is loaded with the strategy of that mode,
    whatever the process-wide mode is. *)
Theorem eagerLoad_late_binding (fuel : nat) (model : ptr) (s : state)
    (m : eagerMode) :
  (Query_eagerMode (q s) = eagerNotSpecified ->
   effective_mode (SetEagerMode m s) = m
   /\ eagerLoad fuel model (SetEagerMode m s)
      = run_strategy (strategy_of m) fuel model
          (with_q (set_eagerMode m (q s)) (SetEagerMode m s)))
  /\ (Query_eagerMode (q s) <> eagerNotSpecified ->
      effective_mode (SetEagerMode m s) = Query_eagerMode (q s)
      /\ eagerLoad fuel model (SetEagerMode m s)
         = run_strategy (strategy_of (Query_eagerMode (q s))) fuel model
             (SetEagerMode m s)).
Proof.
  split; intros Hq.
  - assert (He : effective_mode (SetEagerMode m s) = m).
    { unfold effective_mode. simpl. rewrite Hq. reflexivity. }
    split; [exact He|]. rewrite eagerLoad_dispatch, He. reflexivity.
  - assert (He : effective_mode (SetEagerMode m s) = Query_eagerMode (q s)).
    { unfold effective_mode. simpl.
      destruct (Z.eqb_spec (Query_eagerMode (q s)) eagerNotSpecified);
        [contradiction|reflexivity]. }
    split; [exact He|]. rewrite eagerLoad_dispatch, He. simpl.
    rewrite set_eagerMode_same.
    change (with_q (q s) (SetEagerMode m s))
      with (with_q (q (SetEagerMode m s)) (SetEagerMode m s)).
    rewrite with_q_same. reflexivity.
Qed.

(** C7.  When the effective mode is none of [EagerDefault], [EagerCache]
    and [eagerNotSpecified], [eagerLoad] returns the error "eager mode ...
    is not supported by pop": it runs neither strategy, executes no
    sub-query and leaves the model as it is. *)
Theorem eagerLoad_unsupported_mode (fuel : nat) (model : ptr) (s : state) :
  effective_mode s <> EagerDefault ->
  effective_mode s <> EagerCache ->
  effective_mode s <> eagerNotSpecified ->
  exists s',
    eagerLoad fuel model s = Ret (Some (Errorf_unsupported (emode s))) s'
    /\ heap s' = heap s /\ issued s' = issued s /\ db s' = db s.
Proof.
  intros H0 H1 _.
  exists (with_q (set_eagerMode (effective_mode s) (q s)) s).
  rewrite eagerLoad_dispatch. unfold strategy_of.
  destruct (Z.eqb_spec (effective_mode s) EagerDefault); [contradiction|].
  destruct (Z.eqb_spec (effective_mode s) EagerCache); [contradiction|].
  simpl. repeat split; reflexivity.
Qed.

(** C10.  With effective mode [EagerCache], [eagerLoad] runs
    [eagerLoadCache], which returns nil: no sub-query is executed and the
    model, with all its association fields, is what it was. *)
Theorem eagerLoad_cache_is_noop (fuel : nat) (model : ptr) (s : state) :
  effective_mode s = EagerCache ->
  eagerLoad fuel model s
  = eagerLoadCache model (with_q (set_eagerMode EagerCache (q s)) s)
  /\ exists s',
      eagerLoad fuel model s = Ret None s'
      /\ heap s' = heap s /\ issued s' = issued s /\ db s' = db s.
Proof.
  intros He. rewrite eagerLoad_dispatch, He. simpl. split; [reflexivity|].
  eexists. split; [reflexivity|]. repeat split; reflexivity.
Qed.

(** ** The loop over the associations *)

Lemma assocIter_app (rec : load_fn) (model : ptr) (l1 l2 : list Association)
    (err : option error) (s : state) :
  assocIter rec model (l1 ++ l2) err s
  = match assocIter rec model l1 err s with
    | Next err' s' => assocIter rec model l2 err' s'
    | Stop o => Stop o
    end.
Proof.
  revert err s. induction l1 as [|a l1 IH]; intros err s; simpl; [reflexivity|].
  destruct (assocBody rec model a err s) as [e1 s1|o]; [apply IH|reflexivity].
Qed.

Lemma innerIter_app (rec : load_fn) (model : ptr)
    (l1 l2 : list InnerAssociation) (err : option error) (s : state) :
  innerIter rec model (l1 ++ l2) err s
  = match innerIter rec model l1 err s with
    | Next err' s' => innerIter rec model l2 err' s'
    | Stop o => Stop o
    end.
Proof.
  revert err s. induction l1 as [|i l1 IH]; intros err s; simpl; [reflexivity|].
  destruct (store_at _ (heap s)); [|reflexivity].
  destruct (rec _ _) as [| |[e|] s1]; try reflexivity. apply IH.
Qed.

(** [eagerLoadDefault] on a record: the descriptors are extracted with the
    whitelist the receiver holds at that moment, then the loop runs. *)
Lemma eagerLoadDefault_record (fuel : nat) (model : ptr) (s : state) :
  reflect.is_Slice (reflect.kind_of (Indirect (heap s) model))
  || reflect.is_Array (reflect.kind_of (Indirect (heap s) model)) = false ->
  eagerLoadDefault (S fuel) model s
  = match AssociationsForStruct (Indirect (heap s) model)
                                (Query_eagerFields (q s)) with
    | inl err => Ret (Some err) s
    | inr assos =>
        ret_of_flow (assocIter (eagerLoadDefault fuel) model assos None s)
    end.
Proof.
  intros Hk. simpl. rewrite Hk.
  destruct (AssociationsForStruct _ _); reflexivity.
Qed.

(** The fetch that [populate] runs for an association of a fetched kind. *)
Lemma populate_fetch (model : ptr) (a : Association) (err : option error)
    (s : state) (op : FetchOp) :
  fetch_for (Kind a) = Some op ->
  populate model a err s
  = fetch op (rawQuery (Query_Connection (q s)) a
                (Indirect (heap s) (Interface model a)))
          (Interface model a) s.
Proof.
  unfold fetch_for, populate. intros Hop.
  destruct (Kind a); simpl in *; try discriminate;
    injection Hop as <-;
    destruct (fetch _ _ _ s); reflexivity.
Qed.

(** C8.  An association whose descriptor is marked skipped is passed over:
    the body of the loop executes no sub-query, writes nothing and goes on
    with the same state, so that the loop behaves as if the association
    were not in the list. *)
Theorem skipped_association_untouched (rec : load_fn) (model : ptr)
    (a : Association) (pre post : list Association) (err : option error)
    (s : state) :
  Skipped a = true ->
  assocBody rec model a err s = Next err s
  /\ (forall e0 s0,
        assocIter rec model (pre ++ a :: post) e0 s0
        = assocIter rec model (pre ++ post) e0 s0).
Proof.
  intros Hs.
  assert (Hb : forall e0 s0, assocBody rec model a e0 s0 = Next e0 s0).
  { intros e0 s0. unfold assocBody. rewrite Hs. reflexivity. }
  split; [apply Hb|]. intros e0 s0. rewrite !assocIter_app.
  destruct (assocIter rec model pre e0 s0) as [e1 s1|o]; [|reflexivity].
  simpl. rewrite Hb. reflexivity.
Qed.

(** C9.  The sub-query of an association is the fresh query with the
    constraint applied and, exactly when the association is sortable and
    its [OrderBy()] is not the empty string, with that clause applied as
    its order: an empty clause or an association that is not sortable adds
    no order.  It is this query that is translated and executed. *)
Theorem subQuery_order (model : ptr) (a : Association) (err : option error)
    (s : state) :
  let c := Query_Connection (q s) in
  let dest := Interface model a in
  let constrained :=
    Where (fst (Constraint a)) (snd (Constraint a)) (set_eager false (Q c)) in
  let translated := ToSQL (subQuery c a) (Indirect (heap s) dest) in
  (OrderBy a = Some "" -> subQuery c a = constrained)
  /\ (forall clause,
        OrderBy a = Some clause -> clause <> "" ->
        subQuery c a = Order clause constrained)
  /\ (OrderBy a = None -> subQuery c a = constrained)
  /\ (forall op,
        fetch_for (Kind a) = Some op ->
        issued (snd (populate model a err s))
        = issued s
          ++ [mkFetch op (RawQuery (fst translated) (snd translated)
                                   (subQuery c a)) dest]).
Proof.
  simpl. repeat split.
  - unfold subQuery. destruct (Constraint a) as [w args]. simpl.
    intros ->. reflexivity.
  - unfold subQuery. destruct (Constraint a) as [w args]. simpl.
    intros clause -> Hne.
    destruct (String.eqb_spec clause ""); [contradiction|reflexivity].
  - unfold subQuery. destruct (Constraint a) as [w args]. simpl.
    intros ->. reflexivity.
  - intros op Hop. rewrite (populate_fetch _ _ _ _ _ Hop).
    destruct (fetch_spec op
                (rawQuery (Query_Connection (q s)) a
                   (Indirect (heap s) (Interface model a)))
                (Interface model a) s) as (e & v & d & _ & ->).
    simpl. unfold rawQuery.
    destruct (ToSQL _ _). reflexivity.
Qed.

(** ** Errors of a fetch *)

(** C1 (as the code has it).  The test after the fetch tolerates an error
    whose cause is [sql.ErrNoRows] whichever fetch returned it, [First] on
    a struct or [All] on a slice or array.  The loader then writes nothing
    to the field, which holds what the executor left there (its previous
    content when the executor left it alone), goes on with the inner
    associations of the association and, when there is none, with the
    next association. *)
Theorem no_rows_is_tolerated (rec : load_fn) (model : ptr) (a : Association)
    (err : option error) (s : state) (op : FetchOp) (e : error) (v : value)
    (d : DB) :
  let dest := Interface model a in
  let query :=
    rawQuery (Query_Connection (q s)) a (Indirect (heap s) dest) in
  let s1 := mkState (emode s) (q s) (store_set dest v (heap s)) d
                    (issued s ++ [mkFetch op query dest]) in
  Skipped a = false ->
  fetch_for (Kind a) = Some op ->
  match op with FetchAll => All | FetchFirst => First end
    query (Indirect (heap s) dest) (db s) = (Some e, v, d) ->
  Cause e = sql_ErrNoRows ->
  assocBody rec model a err s
  = innerIter rec model (InnerAssociations a) (Some e) s1
  /\ (v = Indirect (heap s) dest -> heap s1 = heap s)
  /\ (forall rest,
        assocIter rec model (a :: rest) err s
        = match innerIter rec model (InnerAssociations a) (Some e) s1 with
          | Next e' s' => assocIter rec model rest e' s'
          | Stop o => Stop o
          end)
  /\ (InnerAssociations a = [] ->
      forall rest,
        assocIter rec model (a :: rest) err s
        = assocIter rec model rest (Some e) s1).
Proof.
  intros dest query s1 Hs Hop Hrun Hc.
  assert (Hb : assocBody rec model a err s
               = innerIter rec model (InnerAssociations a) (Some e) s1).
  { unfold assocBody. rewrite Hs, (populate_fetch _ _ _ _ _ Hop).
    fold dest. fold query. unfold fetch. rewrite Hrun. fold s1.
    unfold fatal. rewrite Hc. reflexivity. }
  split; [exact Hb|]. split; [|split].
  - intros ->. simpl. apply store_set_same.
  - intros rest. simpl. rewrite Hb. reflexivity.
  - intros Hin rest. simpl. rewrite Hb, Hin. reflexivity.
Qed.

(** C3.  When the fetch of an association returns an error whose cause is
    not [sql.ErrNoRows], the load of the record returns that very error
    with the state the fetch left: whatever associations follow in the
    list and whatever inner associations the failing one has, nothing
    else is executed, and the fields of the record other than the one the
    failing fetch scanned into hold what the earlier associations put
    there. *)
Theorem fetch_error_aborts (fuel : nat) (model : ptr) (s : state)
    (pre post : list Association) (a : Association) (e0 : option error)
    (s0 : state) (op : FetchOp) (e : error) (v : value) (d : DB) :
  let dest := Interface model a in
  let query :=
    rawQuery (Query_Connection (q s0)) a (Indirect (heap s0) dest) in
  let s1 := mkState (emode s0) (q s0) (store_set dest v (heap s0)) d
                    (issued s0 ++ [mkFetch op query dest]) in
  reflect.is_Slice (reflect.kind_of (Indirect (heap s) model))
  || reflect.is_Array (reflect.kind_of (Indirect (heap s) model)) = false ->
  AssociationsForStruct (Indirect (heap s) model) (Query_eagerFields (q s))
  = inr (pre ++ a :: post) ->
  assocIter (eagerLoadDefault fuel) model pre None s = Next e0 s0 ->
  Skipped a = false ->
  fetch_for (Kind a) = Some op ->
  match op with FetchAll => All | FetchFirst => First end
    query (Indirect (heap s0) dest) (db s0) = (Some e, v, d) ->
  Cause e <> sql_ErrNoRows ->
  eagerLoadDefault (S fuel) model s = Ret (Some e) s1
  /\ issued s1 = issued s0 ++ [mkFetch op query dest]
  /\ (forall f r,
        f <> fieldName a ->
        store_at (model ++ reflect.Fld f :: r) (heap s1)
        = store_at (model ++ reflect.Fld f :: r) (heap s0)).
Proof.
  intros dest query s1 Hk Hassos Hpre Hs Hop Hrun Hc.
  split; [|split].
  - rewrite (eagerLoadDefault_record _ _ _ Hk), Hassos, assocIter_app, Hpre.
    simpl. unfold assocBody.
    rewrite Hs, (populate_fetch _ _ _ _ _ Hop).
    fold dest. fold query. unfold fetch. rewrite Hrun. fold s1.
    unfold fatal.
    destruct (Cause e); try reflexivity. contradiction.
  - reflexivity.
  - intros f r Hne. simpl. unfold dest, Interface.
    apply store_set_other_field. congruence.
Qed.

(** ** The inner associations *)


(** C6 (as the code has it).  The whitelist of the receiver is overwritten
    for every inner association and never put back.  When the body of the
    loop completes for an association whose inner associations end with
    the pair [last], the state it leaves is the state the nested load of
    [last] returned, and that load was started with the whitelist
    [[Fields last]].  The receiver then holds a single nested filter:
    [Fields last] when the nested load returns the whitelist it was given,
    the filter of a deeper inner association when the nested load assigned
    one itself.  Every later extraction of descriptors reads the whitelist
    from the state handed on. *)
Theorem eagerFields_not_restored (fuel : nat) (model : ptr)
    (a : Association) (err : option error) (s : state)
    (ins : list InnerAssociation) (last : InnerAssociation)
    (e' : option error) (s' : state) :
  let nested := model ++ [reflect.Fld (Name last)] in
  let entry s2 := with_q (set_eagerFields [Fields last] (q s2)) s2 in
  Skipped a = false ->
  InnerAssociations a = ins ++ [last] ->
  assocBody (eagerLoadDefault fuel) model a err s = Next e' s' ->
  (exists s2, eagerLoadDefault fuel nested (entry s2) = Ret None s')
  /\ (exists filter, Query_eagerFields (q s') = [filter])
  /\ ((forall s2,
         eagerLoadDefault fuel nested (entry s2) = Ret None s' ->
         Query_eagerFields (q s') = Query_eagerFields (q (entry s2))) ->
      Query_eagerFields (q s') = [Fields last])
  /\ (forall fuel' p,
        reflect.is_Slice (reflect.kind_of (Indirect (heap s') p))
        || reflect.is_Array (reflect.kind_of (Indirect (heap s') p)) = false ->
        eagerLoadDefault (S fuel') p s'
        = match AssociationsForStruct (Indirect (heap s') p)
                                      (Query_eagerFields (q s')) with
          | inl err => Ret (Some err) s'
          | inr assos =>
              ret_of_flow (assocIter (eagerLoadDefault fuel') p assos None s')
          end).
Proof.
  intros nested entry Hs Hin Hb.
  assert (Hex : exists s2,
             eagerLoadDefault fuel nested (entry s2) = Ret None s').
  { revert Hb. unfold assocBody. rewrite Hs.
    destruct (populate model a err s) as [e1 s1].
    destruct (fatal e1); [discriminate|].
    rewrite Hin, innerIter_app.
    destruct (innerIter _ model ins e1 s1) as [e2 s2|o]; [|discriminate].
    simpl. destruct (store_at _ (heap s2)); [|discriminate].
    destruct (eagerLoadDefault fuel _ _) as [| |[e3|] s3] eqn:Hr;
      try discriminate.
    intros [= _ <-]. exists s2. exact Hr. }
  split; [exact Hex|]. split; [|split].
  - destruct Hex as (s2 & Hr).
    destruct (eagerLoadDefault_whitelist _ _ _ _ _ Hr) as [Hw|Hw];
      [|exact Hw].
    exists (Fields last). rewrite Hw. reflexivity.
  - intros Hq. destruct Hex as (s2 & Hr). apply Hq in Hr. rewrite Hr.
    reflexivity.
  - intros fuel' p Hk. apply eagerLoadDefault_record. exact Hk.
Qed.

End LoaderFacts.

(** * The properties on the schema *)

Lemma eagerLoadDefault_elements_in_order_witness :
  (2 < 9
   /\ eagerLoadDefault 10 [] (Demo.two_authors ["Books.Publisher"])
      = resolve_in_order (eagerLoadDefault 9) [] [0; 1]
          (Demo.two_authors ["Books.Publisher"]))
  /\ eagerLoadDefault 10 [] Demo.two_cars
     = Ret (Some Demo.connection_reset)
         (Demo.state_of (eagerLoadDefault 9 [reflect.Idx 0] Demo.two_cars)
                        Demo.two_cars).
Proof.
  split.
  - split; [lia|].
    apply (proj1 (eagerLoadDefault_elements_in_order 9 []
                    (Demo.two_authors ["Books.Publisher"])
                    [Demo.author 1 []; Demo.author 2 []]
                    (or_introl eq_refl) ltac:(simpl; lia))).
  - apply (proj2 (proj2 (eagerLoadDefault_elements_in_order 9 []
                    Demo.two_cars
                    [Demo.car 1 [] (Demo.person "") (Demo.person "");
                     Demo.car 2 [] (Demo.person "") (Demo.person "")]
                    (or_intror eq_refl) ltac:(simpl; lia)))
             0 Demo.connection_reset Demo.two_cars).
    + simpl; lia.
    + reflexivity.
    + vm_compute. reflexivity.
Defined.

Lemma eagerLoad_late_binding_witness :
  (effective_mode
     (SetEagerMode EagerCache
        (Demo.start eagerNotSpecified ["Books"] (Demo.author 1 [])))
   = EagerCache
   /\ eagerLoad 10 []
        (SetEagerMode EagerCache
           (Demo.start eagerNotSpecified ["Books"] (Demo.author 1 [])))
      = run_strategy (strategy_of EagerCache) 10 []
          (with_q (set_eagerMode EagerCache
                     (q (Demo.start eagerNotSpecified ["Books"]
                                    (Demo.author 1 []))))
                  (SetEagerMode EagerCache
                     (Demo.start eagerNotSpecified ["Books"]
                                 (Demo.author 1 [])))))
  /\ (effective_mode
        (SetEagerMode EagerCache
           (Demo.start EagerDefault ["Books"] (Demo.author 1 [])))
      = EagerDefault
      /\ eagerLoad 10 []
           (SetEagerMode EagerCache
              (Demo.start EagerDefault ["Books"] (Demo.author 1 [])))
         = run_strategy (strategy_of EagerDefault) 10 []
             (SetEagerMode EagerCache
                (Demo.start EagerDefault ["Books"] (Demo.author 1 [])))).
Proof.
  split.
  - apply (proj1 (eagerLoad_late_binding 10 []
                    (Demo.start eagerNotSpecified ["Books"] (Demo.author 1 []))
                    EagerCache)).
    reflexivity.
  - apply (proj2 (eagerLoad_late_binding 10 []
                    (Demo.start EagerDefault ["Books"] (Demo.author 1 []))
                    EagerCache)).
    vm_compute. lia.
Defined.

Lemma eagerLoad_unsupported_mode_witness :
  exists s',
    eagerLoad 10 [] (Demo.start 7%Z ["Books"] (Demo.author 1 []))
    = Ret (Some (Errorf_unsupported EagerDefault)) s'
    /\ heap s' = Demo.author 1 [] /\ issued s' = [] /\ db s' = 0.
Proof.
  apply (eagerLoad_unsupported_mode 10 []
           (Demo.start 7%Z ["Books"] (Demo.author 1 [])));
    vm_compute; lia.
Defined.

Lemma eagerLoad_cache_is_noop_witness :
  eagerLoad 10 [] (Demo.start EagerCache ["Books"] (Demo.author 1 []))
  = eagerLoadCache []
      (with_q (set_eagerMode EagerCache
                 (q (Demo.start EagerCache ["Books"] (Demo.author 1 []))))
              (Demo.start EagerCache ["Books"] (Demo.author 1 [])))
  /\ exists s',
      eagerLoad 10 [] (Demo.start EagerCache ["Books"] (Demo.author 1 []))
      = Ret None s'
      /\ heap s' = Demo.author 1 [] /\ issued s' = [] /\ db s' = 0.
Proof.
  apply (eagerLoad_cache_is_noop 10 []
           (Demo.start EagerCache ["Books"] (Demo.author 1 []))).
  reflexivity.
Defined.

Lemma skipped_association_untouched_witness :
  assocBody (eagerLoadDefault 5) [] (Demo.owner true) None (Demo.a_car [])
  = Next None (Demo.a_car [])
  /\ assocIter (eagerLoadDefault 5) []
       ([Demo.wheels] ++ Demo.owner true :: [Demo.trips]) None (Demo.a_car [])
     = assocIter (eagerLoadDefault 5) [] ([Demo.wheels] ++ [Demo.trips]) None
         (Demo.a_car []).
Proof.
  destruct (skipped_association_untouched (eagerLoadDefault 5) []
              (Demo.owner true) [Demo.wheels] [Demo.trips] None (Demo.a_car [])
              eq_refl) as [H1 H2].
  split; [exact H1|apply H2].
Defined.

Lemma subQuery_order_witness :
  subQuery "pg" (Demo.publisher_of 10 [])
  = Where "book_id = ?" [VInt 10] (set_eager false (Q "pg"))
  /\ subQuery "pg" (Demo.books [])
     = Order "title asc"
         (Where "author_id = ?" [VInt 1] (set_eager false (Q "pg")))
  /\ subQuery "pg" Demo.wheels
     = Where "car_id = ?" [VInt 1] (set_eager false (Q "pg"))
  /\ Demo.orderClauses (Query_builder (subQuery "pg" (Demo.books [])))
     = ["title asc"].
Proof.
  split; [|split; [|split]].
  - apply (proj1 (subQuery_order [] (Demo.publisher_of 10 []) None
                    (Demo.an_author []))).
    reflexivity.
  - apply (proj1 (proj2 (subQuery_order [] (Demo.books []) None
                           (Demo.an_author []))) "title asc").
    + reflexivity.
    + vm_compute. discriminate.
  - apply (proj1 (proj2 (proj2 (subQuery_order [] Demo.wheels None
                                  (Demo.a_car []))))).
    reflexivity.
  - assert (H : subQuery "pg" (Demo.books [])
                = Order "title asc"
                    (Where "author_id = ?" [VInt 1] (set_eager false (Q "pg")))).
    { apply (proj1 (proj2 (subQuery_order [] (Demo.books []) None
                             (Demo.an_author []))) "title asc").
      - reflexivity.
      - vm_compute. discriminate. }
    rewrite H. reflexivity.
Defined.

(** The fetch into [Tags] runs [All] and returns [sql.ErrNoRows]; the load
    of the post goes on to [Comments] and returns nil. *)
Lemma no_rows_from_fetch_all_is_tolerated :
  AssociationsForStruct (Indirect (heap Demo.a_post) []) []
  = inr [Demo.tags; Demo.comments]
  /\ fetch_for (Kind Demo.tags) = Some FetchAll
  /\ fst (fetch FetchAll (rawQuery "pg" Demo.tags (VSlice []))
                [reflect.Fld "Tags"] Demo.a_post)
     = Some sql_ErrNoRows
  /\ Demo.error_after (eagerLoadDefault 2 [] Demo.a_post) = Some None
  /\ Demo.fetched (eagerLoadDefault 2 [] Demo.a_post)
     = Some [(FetchAll, "tag_id = ?", [reflect.Fld "Tags"]);
             (FetchAll, "post_id = ?", [reflect.Fld "Comments"])].
Proof. vm_compute. repeat split; reflexivity. Qed.

Lemma no_rows_is_tolerated_witness :
  assocBody (eagerLoadDefault 5) [] (Demo.owner false) None (Demo.a_car [])
  = Next (Some Demo.no_rows_wrapped)
         (Demo.state_of_flow
            (assocBody (eagerLoadDefault 5) [] (Demo.owner false) None
                       (Demo.a_car []))
            (Demo.a_car []))
  /\ heap (Demo.state_of_flow
             (assocBody (eagerLoadDefault 5) [] (Demo.owner false) None
                        (Demo.a_car []))
             (Demo.a_car []))
     = heap (Demo.a_car [])
  /\ Demo.fetched
       (ret_of_flow
          (assocIter (eagerLoadDefault 5) [] [Demo.owner false; Demo.trips]
                     None (Demo.a_car [])))
     = Some [(FetchFirst, "owner_id = ?", [reflect.Fld "Owner"]);
             (FetchAll, "trip_id = ?", [reflect.Fld "Trips"])].
Proof.
  destruct (no_rows_is_tolerated (eagerLoadDefault 5) [] (Demo.owner false)
              None (Demo.a_car []) FetchFirst Demo.no_rows_wrapped
              (Demo.person "") 1)
    as (H1 & H2 & _ & H4);
    [reflexivity | reflexivity | vm_compute; reflexivity | reflexivity | ].
  split; [|split].
  - rewrite H1. reflexivity.
  - rewrite H1. simpl innerIter. apply H2. reflexivity.
  - rewrite (H4 eq_refl). vm_compute. reflexivity.
Defined.

Lemma fetch_error_aborts_witness :
  AssociationsForStruct
    (Indirect (heap (Demo.a_car ["Wheels"; "Owner"; "Garage.Owner"; "Trips"]))
              [])
    ["Wheels"; "Owner"; "Garage.Owner"; "Trips"]
  = inr ([Demo.wheels; Demo.owner false]
           ++ Demo.garage [mkInner "Garage" "Owner"] :: [Demo.trips])
  /\ Demo.error_after
       (eagerLoadDefault 10 []
          (Demo.a_car ["Wheels"; "Owner"; "Garage.Owner"; "Trips"]))
     = Some (Some Demo.connection_reset)
  /\ Demo.fetched
       (eagerLoadDefault 10 []
          (Demo.a_car ["Wheels"; "Owner"; "Garage.Owner"; "Trips"]))
     = Some [(FetchAll, "car_id = ?", [reflect.Fld "Wheels"]);
             (FetchFirst, "owner_id = ?", [reflect.Fld "Owner"]);
             (FetchFirst, "garage_id = ?", [reflect.Fld "Garage"])]
  /\ Demo.whitelist_after
       (eagerLoadDefault 10 []
          (Demo.a_car ["Wheels"; "Owner"; "Garage.Owner"; "Trips"]))
     = Some ["Wheels"; "Owner"; "Garage.Owner"; "Trips"].
Proof.
  split; [reflexivity|].
  destruct (fetch_error_aborts 9 []
              (Demo.a_car ["Wheels"; "Owner"; "Garage.Owner"; "Trips"])
              [Demo.wheels; Demo.owner false] [Demo.trips]
              (Demo.garage [mkInner "Garage" "Owner"])
              (Some Demo.no_rows_wrapped)
              (Demo.state_of_flow
                 (assocIter (eagerLoadDefault 9) []
                    [Demo.wheels; Demo.owner false] None
                    (Demo.a_car ["Wheels"; "Owner"; "Garage.Owner"; "Trips"]))
                 (Demo.a_car []))
              FetchFirst Demo.connection_reset (Demo.person "") 3)
    as (H1 & _);
    [reflexivity | reflexivity | vm_compute; reflexivity | reflexivity
    | reflexivity | vm_compute; reflexivity | vm_compute; discriminate | ].
  rewrite H1. vm_compute. repeat split; reflexivity.
Defined.


(** With the whitelist [Books.Publisher.Country] the association [Books]
    has the single nested filter [Publisher.Country]; when its body
    completes, the receiver holds [Country], the filter the nested load
    assigned for the inner association of [Publisher]. *)
Lemma eagerFields_holds_deeper_filter :
  AssociationsForStruct
    (Indirect (heap (Demo.an_author ["Books.Publisher.Country"])) [])
    ["Books.Publisher.Country"]
  = inr [Demo.books [mkInner "Books" "Publisher.Country"]]
  /\ (exists e' s',
        assocBody (eagerLoadDefault 9) []
          (Demo.books [mkInner "Books" "Publisher.Country"]) None
          (Demo.an_author ["Books.Publisher.Country"])
        = Next e' s'
        /\ Query_eagerFields (q s') = ["Country"]
        /\ Query_eagerFields (q s') <> ["Publisher.Country"])
  /\ Demo.whitelist_after
       (eagerLoadDefault 10 [] (Demo.an_author ["Books.Publisher.Country"]))
     = Some ["Country"].
Proof.
  split; [reflexivity|]. split; [|vm_compute; reflexivity].
  eexists _, _. split; [vm_compute; reflexivity|].
  split; [reflexivity|discriminate].
Qed.

Lemma eagerFields_not_restored_witness :
  (exists s2,
      eagerLoadDefault 9 [reflect.Fld "Books"]
        (with_q (set_eagerFields ["Publisher"] (q s2)) s2)
      = Ret None
          (Demo.state_of_flow
             (assocBody (eagerLoadDefault 9) []
                (Demo.books [mkInner "Books" "Publisher"]) None
                (Demo.an_author ["Books.Publisher"]))
             (Demo.an_author [])))
  /\ Query_eagerFields
       (q (Demo.state_of_flow
             (assocBody (eagerLoadDefault 9) []
                (Demo.books [mkInner "Books" "Publisher"]) None
                (Demo.an_author ["Books.Publisher"]))
             (Demo.an_author [])))
     = ["Publisher"].
Proof.
  destruct (eagerFields_not_restored 9 []
              (Demo.books [mkInner "Books" "Publisher"]) None
              (Demo.an_author ["Books.Publisher"]) []
              (mkInner "Books" "Publisher") None
              (Demo.state_of_flow
                 (assocBody (eagerLoadDefault 9) []
                    (Demo.books [mkInner "Books" "Publisher"]) None
                    (Demo.an_author ["Books.Publisher"]))
                 (Demo.an_author [])))
    as (H1 & _ & H3 & _);
    [reflexivity | reflexivity | vm_compute; reflexivity | ].
  split; [exact H1|]. apply H3. intros s2 _. vm_compute. reflexivity.
Defined.

(** The whitelist the first element leaves is the one the second element
    is introspected with: of two authors loaded with [Books.Publisher],
    the second gets no books. *)
Example second_author_not_loaded :
  Demo.model_after (eagerLoadDefault 10 [] (Demo.two_authors ["Books.Publisher"]))
  = Some (VSlice
            [Demo.author 1 [Demo.book 10 (Demo.publisher 7 (Demo.country ""));
                            Demo.book 11 (Demo.publisher 7 (Demo.country ""))];
             Demo.author 2 []])
  /\ Demo.whitelist_after
       (eagerLoadDefault 10 [] (Demo.two_authors ["Books.Publisher"]))
     = Some ["Publisher"].
Proof. vm_compute. split; reflexivity. Qed.

(** The message of the unsupported-mode error names the process-wide mode. *)
Example Errorf_unsupported_default :
  Errorf_unsupported EagerDefault
  = ErrNew "eager mode 0 is not supported by pop".
Proof. vm_compute. reflexivity. Qed.

(** * The frame of a load *)

Lemma store_set_diverge (c : ptr) (a b : step) (p1 d1 : ptr) (v h : value) :
  a <> b ->
  store_at (c ++ a :: p1) (store_set (c ++ b :: d1) v h)
  = store_at (c ++ a :: p1) h.
Proof.
  intros Hne. revert h.
  induction c as [|[g|i] c IH]; intros h; simpl.
  - destruct a as [f|i], b as [g|j], h; try reflexivity.
    + rewrite field_lookup_alter_ne by congruence. reflexivity.
    + rewrite list_lookup_alter_ne by congruence. reflexivity.
    + rewrite list_lookup_alter_ne by congruence. reflexivity.
  - destruct h; try reflexivity. rewrite field_lookup_alter_eq.
    destruct (reflect.field_lookup g fields); simpl; [apply IH|reflexivity].
  - destruct h; try reflexivity;
      rewrite list_lookup_alter_eq;
      (destruct (elems !! i); simpl; [apply IH|reflexivity]).
Qed.

Lemma at_or_below_step (m p : ptr) (x : step) :
  at_or_below m p -> below m (p ++ [x]).
Proof.
  intros [->|H]; [|apply below_step; exact H].
  exists x, []. reflexivity.
Qed.

Section LoaderFrame.

Context {Connection Builder DB : Type} `{!Collaborators Connection Builder DB}.

Abbreviation Query := (Query Connection Builder).
Abbreviation state := (state Connection Builder DB).
Abbreviation outcome := (outcome Connection Builder DB).
Abbreviation flow := (flow Connection Builder DB).
Abbreviation load_fn := (@load_fn Connection Builder DB).

(** A call of the loader changes nothing of the receiver but its whitelist,
    and leaves the package variable alone. *)
Lemma eagerLoadDefault_receiver (fuel : nat) (p : ptr) (s : state)
    (e : option error) (s' : state) :
  eagerLoadDefault fuel p s = Ret e s' ->
  emode s' = emode s
  /\ set_eagerFields [] (q s') = set_eagerFields [] (q s).
Proof.
  apply (eagerLoadDefault_inv (fun _ => True)
           (fun s s' => emode s' = emode s
                        /\ set_eagerFields [] (q s')
                           = set_eagerFields [] (q s))).
  - intros s0. split; reflexivity.
  - intros s1 s2 s3 [H1 H2] [H3 H4]. split; congruence.
  - intros p0 x _. exact I.
  - intros op query p0 f s0 _.
    destruct (fetch_spec op query (p0 ++ [reflect.Fld f]) s0)
      as (err & v & d & _ & ->). split; reflexivity.
  - intros f s0. split; reflexivity.
  - exact I.
Qed.

(** X1.  Whatever a default load does, it returns with the process-wide
    mode, and with the mode, the connection, the eager flag and the clauses
    of the receiver as they were: of the receiver only the whitelist can
    have changed. *)
Theorem eagerLoadDefault_changes_only_whitelist (fuel : nat) (model : ptr)
    (s : state) (e : option error) (s' : state) :
  eagerLoadDefault fuel model s = Ret e s' ->
  emode s' = emode s
  /\ Query_eagerMode (q s') = Query_eagerMode (q s)
  /\ Query_Connection (q s') = Query_Connection (q s)
  /\ Query_eager (q s') = Query_eager (q s)
  /\ Query_builder (q s') = Query_builder (q s).
Proof.
  intros H. apply eagerLoadDefault_receiver in H. destruct H as [H1 H2].
  split; [exact H1|].
  split; [exact (f_equal Query_eagerMode H2)|].
  split; [exact (f_equal Query_Connection H2)|].
  split; [exact (f_equal Query_eager H2)|exact (f_equal Query_builder H2)].
Qed.

(** X2.  A default load only adds to the history of executed sub-queries,
    and every sub-query it executes scans into a place strictly below the
    model it was called on. *)
Theorem eagerLoadDefault_fetches_below_model (fuel : nat) (model : ptr)
    (s : state) (e : option error) (s' : state) :
  eagerLoadDefault fuel model s = Ret e s' ->
  exists more,
    issued s' = issued s ++ more
    /\ Forall (fun f => below model (fetch_dest f)) more.
Proof.
  apply (eagerLoadDefault_inv (at_or_below model)
           (fun s s' => exists more,
                issued s' = issued s ++ more
                /\ Forall (fun f => below model (fetch_dest f)) more)).
  - intros s0. exists []. split; [symmetry; apply app_nil_r|constructor].
  - intros s1 s2 s3 (m1 & H1 & F1) (m2 & H2 & F2). exists (m1 ++ m2).
    split; [rewrite H2, H1, app_assoc; reflexivity|].
    apply Forall_app. split; assumption.
  - intros p0 x H. right. apply at_or_below_step. exact H.
  - intros op query p0 f s0 H.
    destruct (fetch_spec op query (p0 ++ [reflect.Fld f]) s0)
      as (err & v & d & _ & ->). simpl.
    eexists. split; [reflexivity|]. constructor; [|constructor].
    simpl. apply at_or_below_step. exact H.
  - intros f s0. exists []. split; [symmetry; apply app_nil_r|constructor].
  - left. reflexivity.
Qed.

(** X3.  A default load leaves the model the kind of value it was and, for
    a slice or an array, with the number of elements it had: records are
    filled in, never added or removed. *)
Theorem eagerLoadDefault_keeps_shape (fuel : nat) (model : ptr) (s : state)
    (e : option error) (s' : state) :
  eagerLoadDefault fuel model s = Ret e s' ->
  reflect.kind_of (Indirect (heap s') model)
  = reflect.kind_of (Indirect (heap s) model)
  /\ reflect.Len (Indirect (heap s') model)
     = reflect.Len (Indirect (heap s) model).
Proof.
  apply (eagerLoadDefault_inv (at_or_below model)
           (fun s s' =>
              same_shape (Indirect (heap s') model) (Indirect (heap s) model))).
  - intros s0. apply same_shape_refl.
  - intros s1 s2 s3 H1 H2. eapply same_shape_trans; eassumption.
  - intros p0 x H. right. apply at_or_below_step. exact H.
  - intros op query p0 f s0 H.
    destruct (at_or_below_step model p0 (reflect.Fld f) H) as (y & r & ->).
    destruct (fetch_spec op query (model ++ y :: r) s0)
      as (err & v & d & _ & ->). simpl.
    apply store_set_below_shape.
  - intros f s0. apply same_shape_refl.
  - left. reflexivity.
Qed.

(** A call of the loader on a place under the branch [b] of [c] leaves
    every place under another branch of [c] as it is. *)
Lemma eagerLoadDefault_diverge (c : ptr) (a b : step) (p1 : ptr)
    (fuel : nat) (p : ptr) (s : state) (e : option error) (s' : state) :
  a <> b ->
  (exists r, p = c ++ b :: r) ->
  eagerLoadDefault fuel p s = Ret e s' ->
  store_at (c ++ a :: p1) (heap s') = store_at (c ++ a :: p1) (heap s).
Proof.
  intros Hne.
  apply (eagerLoadDefault_inv (fun p => exists r, p = c ++ b :: r)
           (fun s s' => store_at (c ++ a :: p1) (heap s')
                        = store_at (c ++ a :: p1) (heap s))).
  - reflexivity.
  - intros s1 s2 s3 H1 H2. congruence.
  - intros p0 x (r & ->). exists (r ++ [x]).
    rewrite <- app_assoc. reflexivity.
  - intros op query p0 f s0 (r & ->).
    destruct (fetch_spec op query ((c ++ b :: r) ++ [reflect.Fld f]) s0)
      as (err & v & d & _ & ->). simpl.
    rewrite <- app_assoc. simpl. apply store_set_diverge. exact Hne.
  - reflexivity.
Qed.


(** ** The mode of a query after a load *)

Lemma with_q_set_eagerMode_same (s : state) :
  with_q (set_eagerMode (Query_eagerMode (q s)) (q s)) s = s.
Proof. destruct s as [m [c b md fs bd] h d l]. reflexivity. Qed.

(** X5.  A load binds the mode of the query for good: [eagerLoad] returns
    with the effective mode stored in the query, so that (unless that mode
    was itself the unspecified value) any later load of the same query
    runs the same strategy again, whatever the process-wide mode has been
    set to in between. *)
Theorem eagerLoad_binds_mode (fuel : nat) (model : ptr) (s : state)
    (e : option error) (s' : state) :
  eagerLoad fuel model s = Ret e s' ->
  Query_eagerMode (q s') = effective_mode s
  /\ emode s' = emode s
  /\ (effective_mode s <> eagerNotSpecified ->
      forall m fuel' model',
        effective_mode (SetEagerMode m s') = effective_mode s
        /\ eagerLoad fuel' model' (SetEagerMode m s')
           = run_strategy (strategy_of (effective_mode s)) fuel' model'
               (SetEagerMode m s')).
Proof.
  intros H. rewrite eagerLoad_dispatch in H.
  assert (Hq : Query_eagerMode (q s') = effective_mode s /\ emode s' = emode s).
  { destruct (strategy_of (effective_mode s)); simpl in H.
    - apply eagerLoadDefault_receiver in H. destruct H as [H1 H2].
      split; [exact (f_equal Query_eagerMode H2)|exact H1].
    - injection H as _ <-. split; reflexivity.
    - injection H as _ <-. split; reflexivity. }
  destruct Hq as [Hq He]. split; [exact Hq|]. split; [exact He|].
  intros Hne m fuel' model'.
  assert (Heff : effective_mode (SetEagerMode m s') = effective_mode s).
  { unfold effective_mode at 1. simpl. rewrite Hq.
    destruct (Z.eqb_spec (effective_mode s) eagerNotSpecified);
      [contradiction|reflexivity]. }
  split; [exact Heff|].
  rewrite eagerLoad_dispatch, Heff, <- Hq.
  change (q s') with (q (SetEagerMode m s')).
  rewrite with_q_set_eagerMode_same. reflexivity.
Qed.

(** X6.  Once the process-wide mode has been set to the unspecified value,
    the load of every query without a mode of its own fails with "eager
    mode 2 is not supported by pop", and nothing is loaded. *)
Theorem eagerLoad_unspecified_everywhere (fuel : nat) (model : ptr)
    (s : state) :
  Query_eagerMode (q s) = eagerNotSpecified ->
  eagerLoad fuel model (SetEagerMode eagerNotSpecified s)
  = Ret (Some (ErrNew "eager mode 2 is not supported by pop"))
        (SetEagerMode eagerNotSpecified s).
Proof.
  intros Hq. rewrite eagerLoad_dispatch.
  assert (He : effective_mode (SetEagerMode eagerNotSpecified s)
               = eagerNotSpecified).
  { unfold effective_mode. simpl. rewrite Hq. reflexivity. }
  rewrite He.
  replace eagerNotSpecified
    with (Query_eagerMode (q (SetEagerMode eagerNotSpecified s))) at 2
    by exact Hq.
  rewrite with_q_set_eagerMode_same. reflexivity.
Qed.

(** ** Loads that have nothing to do *)

Lemma assocIter_all_skipped (rec : load_fn) (model : ptr)
    (assos : list Association) (err : option error) (s : state) :
  Forall (fun a => Skipped a = true) assos ->
  assocIter rec model assos err s = Next err s.
Proof.
  induction 1 as [|a assos Ha _ IH]; simpl; [reflexivity|].
  unfold assocBody. rewrite Ha. exact IH.
Qed.

(** X7.  The load of a record that declares no association, or only
    skipped ones, returns nil at once: it executes no sub-query, writes
    nothing and leaves the receiver as it is. *)
Theorem eagerLoadDefault_nothing_to_load (fuel : nat) (model : ptr)
    (s : state) (assos : list Association) :
  reflect.is_Slice (reflect.kind_of (Indirect (heap s) model))
  || reflect.is_Array (reflect.kind_of (Indirect (heap s) model)) = false ->
  AssociationsForStruct (Indirect (heap s) model) (Query_eagerFields (q s))
  = inr assos ->
  Forall (fun a => Skipped a = true) assos ->
  eagerLoadDefault (S fuel) model s = Ret None s.
Proof.
  intros Hk Ha Hs.
  rewrite (eagerLoadDefault_record _ _ _ Hk), Ha.
  rewrite (assocIter_all_skipped _ _ _ _ _ Hs). reflexivity.
Qed.

Lemma store_at_app (p r : ptr) (h : value) :
  store_at (p ++ r) h
  = match store_at p h with Some w => store_at r w | None => None end.
Proof.
  revert h. induction p as [|[f|i] p IH]; intros h; simpl; [reflexivity| |].
  - destruct h; try reflexivity.
    destruct (reflect.field_lookup f fields); [apply IH|reflexivity].
  - destruct h; try reflexivity;
      (destruct (elems !! i); [apply IH|reflexivity]).
Qed.

(** The element [i] of the collection at [model]. *)
Lemma Indirect_element (h : value) (model : ptr) (es : list value) (i : nat)
    (v : value) :
  Indirect h model = VSlice es \/ Indirect h model = VArray es ->
  es !! i = Some v ->
  Indirect h (model ++ [reflect.Idx i]) = v.
Proof.
  unfold Indirect. rewrite store_at_app. intros Hm Hi.
  destruct (store_at model h) as [w|]; simpl in *;
    [|destruct Hm; discriminate].
  destruct Hm as [-> | ->]; simpl; rewrite Hi; reflexivity.
Qed.

Lemma elemsLoop_idle (rec : load_fn) (model : ptr) (s : state) (n : nat) :
  reflect.Len (Indirect (heap s) model) = n ->
  (forall i, i < n -> rec (model ++ [reflect.Idx i]) s = Ret None s) ->
  forall k gas i, n = i + k -> k < gas -> elemsLoop rec gas model i s = Ret None s.
Proof.
  intros Hlen Hrec. induction k as [|k IH]; intros gas i Hn Hgas;
    (destruct gas as [|gas]; [lia|]); simpl; rewrite Hlen.
  - replace (i <? n)%nat with false; [reflexivity|].
    symmetry. apply Nat.ltb_ge. lia.
  - replace (i <? n)%nat with true by (symmetry; apply Nat.ltb_lt; lia).
    rewrite Hrec by lia. apply IH; lia.
Qed.

(** X8.  The load of a slice or array whose records declare no association,
    or only skipped ones, returns nil with the state it was given, for any
    number of records; in particular the load of an empty collection does
    nothing, and does not call the introspection. *)
Theorem eagerLoadDefault_collection_nothing_to_load (fuel : nat)
    (model : ptr) (s : state) (es : list value) :
  Indirect (heap s) model = VSlice es \/ Indirect (heap s) model = VArray es ->
  length es < fuel ->
  Forall (fun v =>
            reflect.is_Slice (reflect.kind_of v)
            || reflect.is_Array (reflect.kind_of v) = false
            /\ exists assos,
                AssociationsForStruct v (Query_eagerFields (q s)) = inr assos
                /\ Forall (fun a => Skipped a = true) assos) es ->
  eagerLoadDefault (S fuel) model s = Ret None s.
Proof.
  intros Hm Hfuel Hes. simpl.
  replace (reflect.is_Slice (reflect.kind_of (Indirect (heap s) model))
           || reflect.is_Array (reflect.kind_of (Indirect (heap s) model)))
    with true by (destruct Hm as [-> | ->]; reflexivity).
  apply (elemsLoop_idle _ _ _ (length es)) with (k := length es);
    [destruct Hm as [-> | ->]; reflexivity| |reflexivity|exact Hfuel].
  intros i Hi. destruct fuel as [|fuel]; [lia|].
  destruct (lookup_lt_is_Some_2 es i Hi) as [v Hv].
  pose proof (Indirect_element _ _ _ _ _ Hm Hv) as Hel.
  rewrite Forall_lookup in Hes.
  destruct (Hes i v Hv) as (Hk & assos & Ha & Hs).
  rewrite eagerLoadDefault_record by (rewrite Hel; exact Hk).
  rewrite Hel, Ha, (assocIter_all_skipped _ _ _ _ _ Hs). reflexivity.
Qed.

(** ** Associations of a kind that is not fetched *)

Lemma innerIter_err (rec : load_fn) (model : ptr)
    (inners : list InnerAssociation) (err : option error) (s : state)
    (e' : option error) (s' : state) :
  innerIter rec model inners err s = Next e' s' -> e' = err \/ e' = None.
Proof.
  revert err s. induction inners as [|i inners IH]; intros err s; simpl.
  - intros [= <- _]. left. reflexivity.
  - destruct (store_at _ (heap s)); [|discriminate].
    destruct (rec _ _) as [| |[e1|] s1]; try discriminate.
    intros H. apply IH in H. right. destruct H; assumption.
Qed.

Lemma populate_unfetched (model : ptr) (a : Association)
    (err : option error) (s : state) :
  fetch_for (Kind a) = None -> populate model a err s = (err, s).
Proof.
  unfold fetch_for, populate. intros H.
  destruct (reflect.is_Slice (Kind a) || reflect.is_Array (Kind a));
    [discriminate|].
  destruct (reflect.is_Struct (Kind a)); [discriminate|reflexivity].
Qed.

(** The variable [err] never holds a fatal error when an iteration of the
    loop over the associations begins. *)
Lemma assocBody_err_tolerated (rec : load_fn) (model : ptr) (a : Association)
    (err : option error) (s : state) (e' : option error) (s' : state) :
  fatal err = false ->
  assocBody rec model a err s = Next e' s' ->
  fatal e' = false.
Proof.
  intros Hf. unfold assocBody. destruct (Skipped a).
  - intros [= <- _]. exact Hf.
  - destruct (populate model a err s) as [e1 s1].
    destruct (fatal e1) eqn:H1; [discriminate|].
    intros H. apply innerIter_err in H. destruct H as [->| ->];
      [exact H1|reflexivity].
Qed.

Lemma assocIter_err_tolerated (rec : load_fn) (model : ptr)
    (assos : list Association) (err : option error) (s : state)
    (e' : option error) (s' : state) :
  fatal err = false ->
  assocIter rec model assos err s = Next e' s' ->
  fatal e' = false.
Proof.
  revert err s. induction assos as [|a assos IH]; intros err s Hf; simpl.
  - intros [= <- _]. exact Hf.
  - destruct (assocBody rec model a err s) as [e1 s1|o] eqn:Hb;
      [|discriminate].
    apply IH. eapply assocBody_err_tolerated; eassumption.
Qed.

(** X9.  An association whose [Kind()] is neither slice, array nor struct
    (a pointer field, say) is never fetched: no sub-query is executed for
    it and its field is not written, yet its inner associations are loaded;
    without inner associations the load goes on as if the association were
    not in the list. *)
Theorem unfetched_kind_not_loaded (rec : load_fn) (model : ptr)
    (a : Association) (err : option error) (s : state) :
  fetch_for (Kind a) = None ->
  populate model a err s = (err, s)
  /\ (Skipped a = false -> fatal err = false ->
      assocBody rec model a err s
      = innerIter rec model (InnerAssociations a) err s)
  /\ (InnerAssociations a = [] ->
      forall pre post s0,
        assocIter rec model (pre ++ a :: post) None s0
        = assocIter rec model (pre ++ post) None s0).
Proof.
  intros Hk.
  assert (Hb : forall e0 s0, fatal e0 = false ->
             assocBody rec model a e0 s0
             = if Skipped a then Next e0 s0
               else innerIter rec model (InnerAssociations a) e0 s0).
  { intros e0 s0 Hf. unfold assocBody.
    rewrite (populate_unfetched _ _ _ _ Hk), Hf. reflexivity. }
  split; [apply populate_unfetched; exact Hk|]. split.
  - intros Hs Hf. rewrite (Hb _ _ Hf), Hs. reflexivity.
  - intros Hin pre post s0. rewrite !assocIter_app.
    destruct (assocIter rec model pre None s0) as [e1 s1|o] eqn:Hp;
      [|reflexivity].
    simpl. rewrite Hb by (eapply assocIter_err_tolerated; [|exact Hp];
                          reflexivity).
    rewrite Hin. destruct (Skipped a); reflexivity.
Qed.

(** ** One sub-query for each association *)

Lemma populate_log (model : ptr) (a : Association) (err : option error)
    (s : state) :
  fetch_log (issued (snd (populate model a err s)))
  = fetch_log (issued s)
    ++ match fetch_for (Kind a) with
       | Some op => [(op, Interface model a)]
       | None => []
       end.
Proof.
  destruct (fetch_for (Kind a)) as [op|] eqn:Hk.
  - rewrite (populate_fetch _ _ _ _ _ Hk).
    destruct (fetch_spec op
                (rawQuery (Query_Connection (q s)) a
                   (Indirect (heap s) (Interface model a)))
                (Interface model a) s) as (e & v & d & _ & ->).
    simpl. unfold fetch_log. rewrite map_app. reflexivity.
  - rewrite (populate_unfetched _ _ _ _ Hk). simpl.
    symmetry. apply app_nil_r.
Qed.

Lemma assocIter_flat (rec : load_fn) (model : ptr) (assos : list Association) :
  Forall (fun a => InnerAssociations a = []) assos ->
  forall err s,
    (exists e' s',
        assocIter rec model assos err s = Next e' s'
        /\ fetch_log (issued s')
           = fetch_log (issued s) ++ omap (fetch_plan model) assos)
    \/ (exists e s' done rest,
          assocIter rec model assos err s = Stop (Ret (Some e) s')
          /\ assos = done ++ rest
          /\ fetch_log (issued s')
             = fetch_log (issued s) ++ omap (fetch_plan model) done).
Proof.
  induction 1 as [|a assos Ha _ IH]; intros err s.
  - left. exists err, s. split; [reflexivity|].
    symmetry. apply app_nil_r.
  - simpl. unfold assocBody, fetch_plan at 1 3.
    destruct (Skipped a) eqn:Hs.
    + destruct (IH err s) as [(e' & s' & H1 & H2)|(e & s' & dn & rs & H1 & H2 & H3)].
      * left. exists e', s'. split; [exact H1|exact H2].
      * right. exists e, s', (a :: dn), rs. split; [exact H1|].
        split; [rewrite H2; reflexivity|].
        simpl. unfold fetch_plan at 1. rewrite Hs. exact H3.
    + pose proof (populate_log model a err s) as Hl.
      destruct (populate model a err s) as [e1 s1]. simpl in Hl.
      destruct (fatal e1) eqn:Hf.
      * right. destruct e1 as [e|]; [|discriminate].
        exists e, s1, [a], assos. split; [reflexivity|].
        split; [reflexivity|]. simpl. unfold fetch_plan. rewrite Hs, Hl.
        destruct (fetch_for (Kind a)); reflexivity.
      * rewrite Ha. simpl.
        destruct (IH e1 s1)
          as [(e' & s' & H1 & H2)|(e & s' & dn & rs & H1 & H2 & H3)].
        -- left. exists e', s'. split; [exact H1|].
           rewrite H2, Hl, <- app_assoc.
           destruct (fetch_for (Kind a)); reflexivity.
        -- right. exists e, s', (a :: dn), rs. split; [exact H1|].
           split; [rewrite H2; reflexivity|].
           simpl. unfold fetch_plan at 1. rewrite Hs, H3, Hl, <- app_assoc.
           destruct (fetch_for (Kind a)); reflexivity.
Qed.

(** X10.  The load of a record whose associations have no inner
    associations always returns, and it executes exactly one sub-query for
    each association that is neither skipped nor of a kind that is not
    fetched, in the order of the descriptors, with [All] into the field of
    a slice or array association and [First] into the field of a struct
    association; when it returns an error, the sub-queries stop with the
    association that failed. *)
Theorem eagerLoadDefault_one_fetch_per_association (fuel : nat) (model : ptr)
    (s : state) (assos : list Association) :
  reflect.is_Slice (reflect.kind_of (Indirect (heap s) model))
  || reflect.is_Array (reflect.kind_of (Indirect (heap s) model)) = false ->
  AssociationsForStruct (Indirect (heap s) model) (Query_eagerFields (q s))
  = inr assos ->
  Forall (fun a => InnerAssociations a = []) assos ->
  exists e s' done rest,
    eagerLoadDefault (S fuel) model s = Ret e s'
    /\ assos = done ++ rest
    /\ fetch_log (issued s')
       = fetch_log (issued s) ++ omap (fetch_plan model) done
    /\ (e = None -> rest = []).
Proof.
  intros Hk Ha Hflat. rewrite (eagerLoadDefault_record _ _ _ Hk), Ha.
  destruct (assocIter_flat (eagerLoadDefault fuel) model assos Hflat None s)
    as [(e' & s' & H1 & H2)|(e & s' & dn & rs & H1 & H2 & H3)]; rewrite H1.
  - exists None, s', assos, []. split; [reflexivity|].
    split; [symmetry; apply app_nil_r|]. split; [exact H2|reflexivity].
  - exists (Some e), s', dn, rs. split; [reflexivity|].
    split; [exact H2|]. split; [exact H3|discriminate].
Qed.

(** ** The fields a load writes *)





(** ** Failures inside the inner associations *)


(** X13.  An error that the load of an inner association returns is
    returned by the load of the record as it is, tolerated cause or not:
    [sql.ErrNoRows] is tolerated only as the direct result of a fetch.
    The remaining inner associations and the remaining associations are
    not processed. *)
Theorem nested_error_is_returned (fuel : nat) (model : ptr) (s : state)
    (pre post : list Association) (a : Association)
    (e0 : option error) (s0 : state) (e1 : option error) (s1 : state)
    (ins rest : list InnerAssociation) (inner : InnerAssociation)
    (e2 : option error) (s2 : state) (w : value) (e : error) (s3 : state) :
  reflect.is_Slice (reflect.kind_of (Indirect (heap s) model))
  || reflect.is_Array (reflect.kind_of (Indirect (heap s) model)) = false ->
  AssociationsForStruct (Indirect (heap s) model) (Query_eagerFields (q s))
  = inr (pre ++ a :: post) ->
  assocIter (eagerLoadDefault fuel) model pre None s = Next e0 s0 ->
  Skipped a = false ->
  populate model a e0 s0 = (e1, s1) ->
  fatal e1 = false ->
  InnerAssociations a = ins ++ inner :: rest ->
  innerIter (eagerLoadDefault fuel) model ins e1 s1 = Next e2 s2 ->
  store_at (model ++ [reflect.Fld (Name inner)]) (heap s2) = Some w ->
  eagerLoadDefault fuel (model ++ [reflect.Fld (Name inner)])
    (with_q (set_eagerFields [Fields inner] (q s2)) s2)
  = Ret (Some e) s3 ->
  eagerLoadDefault (S fuel) model s = Ret (Some e) s3.
Proof.
  intros Hk Ha Hpre Hs Hp Hf Hin Hins Hw Hr.
  rewrite (eagerLoadDefault_record _ _ _ Hk), Ha, assocIter_app, Hpre.
  simpl. unfold assocBody.
  rewrite Hs, Hp, Hf, Hin, innerIter_app, Hins. simpl. rewrite Hw, Hr.
  reflexivity.
Qed.

(** ** Where errors come from *)

Section NoErrorOfItsOwn.

Hypothesis All_tolerable :
  forall qu v d, fatal (fst (fst (All qu v d))) = false.
Hypothesis First_tolerable :
  forall qu v d, fatal (fst (fst (First qu v d))) = false.
Hypothesis introspection_succeeds :
  forall v fields, exists assos, AssociationsForStruct v fields = inr assos.

Lemma fetch_tolerable (op : FetchOp) (query : Query) (dest : ptr) (s : state) :
  fatal (fst (fetch op query dest s)) = false.
Proof.
  unfold fetch. destruct op.
  - pose proof (All_tolerable query (Indirect (heap s) dest) (db s)) as H.
    destruct (All query (Indirect (heap s) dest) (db s)) as [[e v] d].
    exact H.
  - pose proof (First_tolerable query (Indirect (heap s) dest) (db s)) as H.
    destruct (First query (Indirect (heap s) dest) (db s)) as [[e v] d].
    exact H.
Qed.

Lemma populate_tolerable (model : ptr) (a : Association) (err : option error)
    (s : state) :
  fatal err = false -> fatal (fst (populate model a err s)) = false.
Proof.
  intros Hf. destruct (fetch_for (Kind a)) as [op|] eqn:Hk.
  - rewrite (populate_fetch _ _ _ _ _ Hk). apply fetch_tolerable.
  - rewrite (populate_unfetched _ _ _ _ Hk). exact Hf.
Qed.

Lemma innerIter_no_error (rec : load_fn) (model : ptr) :
  (forall p s e s', rec p s = Ret e s' -> e = None) ->
  forall inners err s e s',
    innerIter rec model inners err s = Stop (Ret e s') -> e = None.
Proof.
  intros Hrec. induction inners as [|i inners IH]; intros err s e s'; simpl;
    [discriminate|].
  destruct (store_at _ (heap s)); [|discriminate].
  destruct (rec _ _) as [| |[e1|] s1] eqn:Hr; try discriminate.
  - apply Hrec in Hr. discriminate.
  - apply IH.
Qed.

Lemma assocIter_no_error (rec : load_fn) (model : ptr) :
  (forall p s e s', rec p s = Ret e s' -> e = None) ->
  forall assos err s e s',
    fatal err = false ->
    assocIter rec model assos err s = Stop (Ret e s') -> e = None.
Proof.
  intros Hrec. induction assos as [|a assos IH]; intros err s e s' Hf; simpl;
    [discriminate|].
  destruct (assocBody rec model a err s) as [e1 s1|o] eqn:Hb.
  - apply IH. eapply assocBody_err_tolerated; eassumption.
  - intros [= ->]. revert Hb. unfold assocBody.
    destruct (Skipped a); [discriminate|].
    pose proof (populate_tolerable model a err s Hf) as Hp.
    destruct (populate model a err s) as [e1 s1]. simpl in Hp. rewrite Hp.
    apply innerIter_no_error. exact Hrec.
Qed.

Lemma elemsLoop_no_error (rec : load_fn) (model : ptr) :
  (forall p s e s', rec p s = Ret e s' -> e = None) ->
  forall gas i s e s', elemsLoop rec gas model i s = Ret e s' -> e = None.
Proof.
  intros Hrec. induction gas as [|gas IH]; intros i s e s'; simpl;
    [discriminate|].
  destruct (i <? _)%nat.
  - destruct (rec _ s) as [| |[e1|] s1] eqn:Hr; try discriminate.
    + apply Hrec in Hr. discriminate.
    + apply IH.
  - intros [= <- _]. reflexivity.
Qed.

(** X14.  The loader makes no error of its own: when neither fetch ever
    returns an error other than one caused by [sql.ErrNoRows] and the
    introspection never fails, a default load that returns returns nil,
    however deep the model and its inner associations go. *)
Theorem eagerLoadDefault_no_error_of_its_own (fuel : nat) (model : ptr)
    (s : state) (e : option error) (s' : state) :
  eagerLoadDefault fuel model s = Ret e s' -> e = None.
Proof.
  revert model s e s'. induction fuel as [|fuel IH]; intros model s e s';
    simpl; [discriminate|].
  destruct (_ || _).
  - apply elemsLoop_no_error. exact IH.
  - destruct (introspection_succeeds (Indirect (heap s) model)
                (Query_eagerFields (q s))) as [assos ->].
    destruct (assocIter _ model assos None s) as [e1 s1|o] eqn:Hi.
    + intros [= <- _]. reflexivity.
    + intros ->. eapply assocIter_no_error; [exact IH| |exact Hi].
      reflexivity.
Qed.

End NoErrorOfItsOwn.

(** ** Termination without inner associations *)

Section Flat.

Hypothesis introspection_flat :
  forall v fields assos,
    AssociationsForStruct v fields = inr assos ->
    Forall (fun a => InnerAssociations a = []) assos.

Lemma eagerLoadDefault_record_returns (fuel : nat) (p : ptr) (s : state) :
  reflect.is_Slice (reflect.kind_of (Indirect (heap s) p))
  || reflect.is_Array (reflect.kind_of (Indirect (heap s) p)) = false ->
  exists e s', eagerLoadDefault (S fuel) p s = Ret e s'.
Proof.
  intros Hk. rewrite (eagerLoadDefault_record _ _ _ Hk).
  destruct (AssociationsForStruct _ _) as [err|assos] eqn:Ha.
  - exists (Some err), s. reflexivity.
  - destruct (assocIter_flat (eagerLoadDefault fuel) p assos
                (introspection_flat _ _ _ Ha) None s)
      as [(e' & s' & H1 & _)|(e & s' & dn & rs & H1 & _)]; rewrite H1.
    + exists None, s'. reflexivity.
    + exists (Some e), s'. reflexivity.
Qed.

Lemma elemsLoop_step (rec : load_fn) (gas : nat) (model : ptr) (i : nat)
    (s : state) :
  elemsLoop rec (S gas) model i s
  = if (i <? reflect.Len (Indirect (heap s) model))%nat then
      match rec (model ++ [reflect.Idx i]) s with
      | Ret None s' => elemsLoop rec gas model (S i) s'
      | o => o
      end
    else Ret None s.
Proof. reflexivity. Qed.

Lemma eagerLoadDefault_collection (fuel : nat) (model : ptr) (s : state) :
  reflect.is_Slice (reflect.kind_of (Indirect (heap s) model))
  || reflect.is_Array (reflect.kind_of (Indirect (heap s) model)) = true ->
  eagerLoadDefault (S fuel) model s
  = elemsLoop (eagerLoadDefault fuel) fuel model 0 s.
Proof. intros Hk. simpl. rewrite Hk. reflexivity. Qed.

Lemma elemsLoop_returns (fuel : nat) (model : ptr) :
  forall k gas i s,
    reflect.Len (Indirect (heap s) model) = i + k ->
    (forall j, i <= j < i + k ->
       reflect.is_Slice
         (reflect.kind_of (Indirect (heap s) (model ++ [reflect.Idx j])))
       || reflect.is_Array
            (reflect.kind_of (Indirect (heap s) (model ++ [reflect.Idx j])))
       = false) ->
    k < gas ->
    exists e s', elemsLoop (eagerLoadDefault (S fuel)) gas model i s = Ret e s'.
Proof.
  induction k as [|k IH]; intros gas i s Hlen Hrec Hgas;
    (destruct gas as [|gas]; [lia|]); rewrite elemsLoop_step, Hlen.
  - replace (i <? i + 0)%nat with false
      by (symmetry; apply Nat.ltb_ge; lia).
    exists None, s. reflexivity.
  - replace (i <? i + S k)%nat with true
      by (symmetry; apply Nat.ltb_lt; lia).
    destruct (eagerLoadDefault_record_returns fuel (model ++ [reflect.Idx i]) s)
      as (e & s1 & Hr); [apply Hrec; lia|].
    rewrite Hr. destruct e as [e|]; [exists (Some e), s1; reflexivity|].
    apply IH; [| |lia].
    + pose proof (eagerLoadDefault_shape model _ _ _ _ _
                    (ex_intro _ (reflect.Idx i) (ex_intro _ [] eq_refl)) Hr)
        as [_ Hl].
      rewrite Hl, Hlen. lia.
    + intros j Hj. unfold Indirect.
      rewrite (eagerLoadDefault_diverge model (reflect.Idx j) (reflect.Idx i)
                 [] _ _ _ _ _ ltac:(intros [= ->]; lia)
                 (ex_intro _ [] eq_refl) Hr).
      apply Hrec. lia.
Qed.

(** X15.  Only inner associations make the loader recurse: when the
    introspection gives no association an inner association, the load of
    a record returns with any fuel, and the load of a slice or array of N
    records returns as soon as the fuel exceeds N + 1, with nil or with
    the first error. *)
Theorem eagerLoadDefault_returns_without_inner (fuel : nat) (model : ptr)
    (s : state) :
  (reflect.is_Slice (reflect.kind_of (Indirect (heap s) model))
   || reflect.is_Array (reflect.kind_of (Indirect (heap s) model)) = false ->
   exists e s', eagerLoadDefault (S fuel) model s = Ret e s')
  /\ (forall es,
        Indirect (heap s) model = VSlice es
        \/ Indirect (heap s) model = VArray es ->
        Forall (fun v => reflect.is_Slice (reflect.kind_of v)
                         || reflect.is_Array (reflect.kind_of v) = false) es ->
        length es < S fuel ->
        exists e s', eagerLoadDefault (S (S fuel)) model s = Ret e s').
Proof.
  split; [apply eagerLoadDefault_record_returns|].
  intros es Hm Hes Hfuel.
  rewrite eagerLoadDefault_collection
    by (destruct Hm as [-> | ->]; reflexivity).
  apply (elemsLoop_returns fuel model (length es));
    [destruct Hm as [-> | ->]; reflexivity| |exact Hfuel].
  intros j Hj.
  destruct (lookup_lt_is_Some_2 es j ltac:(lia)) as [v Hv].
  rewrite (Indirect_element _ _ _ _ _ Hm Hv).
  rewrite Forall_lookup in Hes. exact (Hes j v Hv).
Qed.

End Flat.

End LoaderFrame.

(** * The frame of a load on the schema *)

Lemma eagerLoadDefault_changes_only_whitelist_witness :
  let s := Demo.an_author ["Books.Publisher"] in
  let s' := Demo.state_of (eagerLoadDefault 10 [] s) s in
  Query_eagerFields (q s') = ["Publisher"]
  /\ emode s' = emode s
  /\ Query_eagerMode (q s') = Query_eagerMode (q s)
  /\ Query_Connection (q s') = Query_Connection (q s)
  /\ Query_eager (q s') = Query_eager (q s)
  /\ Query_builder (q s') = Query_builder (q s).
Proof.
  intros s s'. split; [vm_compute; reflexivity|].
  apply (eagerLoadDefault_changes_only_whitelist 10 [] s None s').
  vm_compute. reflexivity.
Defined.

Lemma eagerLoadDefault_fetches_below_model_witness :
  let s := Demo.two_authors ["Books.Publisher"] in
  let s' := Demo.state_of (eagerLoadDefault 9 [reflect.Idx 0] s) s in
  exists more,
    issued s' = issued s ++ more
    /\ Forall (fun f => below [reflect.Idx 0] (fetch_dest f)) more.
Proof.
  intros s s'.
  apply (eagerLoadDefault_fetches_below_model 9 [reflect.Idx 0] s None s').
  vm_compute. reflexivity.
Defined.

Lemma eagerLoadDefault_keeps_shape_witness :
  let s := Demo.two_authors ["Books.Publisher"] in
  let s' := Demo.state_of (eagerLoadDefault 10 [] s) s in
  reflect.kind_of (Indirect (heap s') []) = reflect.Slice
  /\ reflect.Len (Indirect (heap s') []) = 2.
Proof.
  intros s s'.
  destruct (eagerLoadDefault_keeps_shape 10 [] s None s') as [H1 H2];
    [vm_compute; reflexivity|].
  rewrite H1, H2. split; reflexivity.
Defined.


Lemma eagerLoad_binds_mode_witness :
  let s := Demo.start eagerNotSpecified ["Books"] (Demo.author 1 []) in
  let s' := Demo.state_of (eagerLoad 10 [] s) s in
  Query_eagerMode (q s') = EagerDefault
  /\ effective_mode (SetEagerMode EagerCache s') = EagerDefault.
Proof.
  intros s s'.
  destruct (eagerLoad_binds_mode 10 [] s None s') as (H1 & _ & H3);
    [vm_compute; reflexivity|].
  split; [exact H1|].
  apply (H3 ltac:(vm_compute; lia) EagerCache 0 []).
Defined.

Lemma eagerLoad_unspecified_everywhere_witness :
  eagerLoad 10 []
    (SetEagerMode eagerNotSpecified
       (Demo.start eagerNotSpecified ["Books"] (Demo.author 1 [])))
  = Ret (Some (ErrNew "eager mode 2 is not supported by pop"))
        (SetEagerMode eagerNotSpecified
           (Demo.start eagerNotSpecified ["Books"] (Demo.author 1 []))).
Proof.
  apply (eagerLoad_unspecified_everywhere 10 []
           (Demo.start eagerNotSpecified ["Books"] (Demo.author 1 []))).
  reflexivity.
Defined.

Lemma eagerLoadDefault_nothing_to_load_witness :
  eagerLoadDefault 1 [] (Demo.start EagerDefault [] (Demo.person "Ann"))
  = Ret None (Demo.start EagerDefault [] (Demo.person "Ann")).
Proof.
  apply (eagerLoadDefault_nothing_to_load 0 []
           (Demo.start EagerDefault [] (Demo.person "Ann")) []).
  - reflexivity.
  - reflexivity.
  - constructor.
Defined.

Lemma eagerLoadDefault_collection_nothing_to_load_witness :
  eagerLoadDefault 4 []
    (Demo.start EagerDefault [] (VSlice [Demo.person "Ann"; Demo.person "Bob"]))
  = Ret None
      (Demo.start EagerDefault [] (VSlice [Demo.person "Ann"; Demo.person "Bob"])).
Proof.
  apply (eagerLoadDefault_collection_nothing_to_load 3 []
           (Demo.start EagerDefault []
              (VSlice [Demo.person "Ann"; Demo.person "Bob"]))
           [Demo.person "Ann"; Demo.person "Bob"]).
  - left. reflexivity.
  - simpl. lia.
  - apply List.Forall_cons;
      [split; [reflexivity|exists []; split; [reflexivity|apply List.Forall_nil]]|].
    apply List.Forall_cons;
      [split; [reflexivity|exists []; split; [reflexivity|apply List.Forall_nil]]|].
    apply List.Forall_nil.
Defined.

Lemma unfetched_kind_not_loaded_witness :
  let a := mkAssociation "Owner" reflect.Pointer ("owner_id = ?", [VInt 1])
                         None [] false in
  assocIter (eagerLoadDefault 5) [] ([Demo.wheels] ++ a :: [Demo.trips]) None
            (Demo.a_car [])
  = assocIter (eagerLoadDefault 5) [] ([Demo.wheels] ++ [Demo.trips]) None
              (Demo.a_car []).
Proof.
  intros a.
  apply (proj2 (proj2 (unfetched_kind_not_loaded (eagerLoadDefault 5) [] a
                         None (Demo.a_car []) eq_refl)) eq_refl).
Defined.

Lemma eagerLoadDefault_one_fetch_per_association_witness :
  let s := Demo.a_car ["Wheels"; "Owner"] in
  omap (fetch_plan []) [Demo.wheels; Demo.owner false]
  = [(FetchAll, [reflect.Fld "Wheels"]); (FetchFirst, [reflect.Fld "Owner"])]
  /\ exists e s' done rest,
      eagerLoadDefault 1 [] s = Ret e s'
      /\ [Demo.wheels; Demo.owner false] = done ++ rest
      /\ fetch_log (issued s')
         = fetch_log (issued s) ++ omap (fetch_plan []) done
      /\ (e = None -> rest = []).
Proof.
  intros s. split; [reflexivity|].
  apply (eagerLoadDefault_one_fetch_per_association 0 [] s
           [Demo.wheels; Demo.owner false]).
  - reflexivity.
  - vm_compute. reflexivity.
  - repeat constructor.
Defined.



Lemma nested_error_is_returned_witness :
  let s := Demo.start EagerDefault ["Comments.Author"] (Demo.post 1 [] []) in
  Demo.error_after (eagerLoadDefault 10 [] s)
  = Some (Some (ErrNew "could not get struct associations: not a struct"))
  /\ Demo.fetched (eagerLoadDefault 10 [] s)
     = Some [(FetchAll, "post_id = ?", [reflect.Fld "Comments"])].
Proof.
  intros s.
  set (a := mkAssociation "Comments" reflect.Slice ("post_id = ?", [VInt 1])
                          None [mkInner "Comments" "Author"] false).
  rewrite (nested_error_is_returned 9 [] s [] [] a None s None
             (snd (populate [] a None s)) [] [] (mkInner "Comments" "Author")
             None (snd (populate [] a None s))
             (VSlice [VString "first!"; VString "nice"])
             (ErrNew "could not get struct associations: not a struct")
             (Demo.state_of
                (eagerLoadDefault 9 [reflect.Fld "Comments"]
                   (with_q (set_eagerFields ["Author"]
                              (q (snd (populate [] a None s))))
                           (snd (populate [] a None s))))
                s));
    try (vm_compute; reflexivity).
  split; vm_compute; reflexivity.
Defined.

Lemma eagerLoadDefault_no_error_of_its_own_witness :
  Demo.error_after
    (@eagerLoadDefault _ _ _ Quiet.collaborators 4 [] Demo.two_cars)
  = Some None.
Proof.
  destruct (@eagerLoadDefault _ _ _ Quiet.collaborators 4 [] Demo.two_cars)
    as [| |e s'] eqn:H.
  - vm_compute in H. discriminate.
  - vm_compute in H. discriminate.
  - apply (@eagerLoadDefault_no_error_of_its_own _ _ _ Quiet.collaborators)
      in H.
    + rewrite H. reflexivity.
    + intros qu v d. reflexivity.
    + intros qu v d. reflexivity.
    + intros v fields. eexists. reflexivity.
Defined.

Lemma eagerLoadDefault_returns_without_inner_witness :
  (exists e s',
      @eagerLoadDefault _ _ _ Quiet.collaborators 1 [] (Demo.a_car [])
      = Ret e s')
  /\ (exists e s',
        @eagerLoadDefault _ _ _ Quiet.collaborators 4 [] Demo.two_cars
        = Ret e s').
Proof.
  assert (Hflat : forall v fields assos,
             @AssociationsForStruct _ _ _ Quiet.collaborators v fields
             = inr assos ->
             Forall (fun a => InnerAssociations a = []) assos).
  { intros v fields assos [= <-]. repeat constructor. }
  split.
  - apply (proj1 (@eagerLoadDefault_returns_without_inner _ _ _
                    Quiet.collaborators Hflat 0 [] (Demo.a_car []))).
    reflexivity.
  - apply (proj2 (@eagerLoadDefault_returns_without_inner _ _ _
                    Quiet.collaborators Hflat 2 [] Demo.two_cars)
             [Demo.car 1 [] (Demo.person "") (Demo.person "");
              Demo.car 2 [] (Demo.person "") (Demo.person "")]).
    + right. reflexivity.
    + repeat constructor.
    + simpl. lia.
Defined.
